(** * WorkWise: job matching, dashboard aggregation and the API route

    A shallow embedding of the two source files of the repository:

    - the page component ([findMatchedJobs], [getSkillFrequencyData],
      [getJobDemandData]), modelled as pure functions of the React state
      they read and of the bundled catalog [skillsJobsData];
    - the catch-all API route ([handleRoute]), modelled in a small
      state-and-exception monad over the module-level connection handle,
      the two collections and the auth provider's answers.

    Strings are sequences of code units below 256 (the Latin-1 range
    U+0000 - U+00FF), one [ascii] per code unit.  JavaScript numbers that
    occur here are lengths and counters, modelled as [Z]. *)

From Stdlib Require Import List String Ascii ZArith Bool Arith Lia.
From Stdlib Require Import Permutation Sorted.
Import ListNotations.

Local Open Scope string_scope.

(* ================================================================== *)
(** * Built-ins of the host language used by the sources *)
(* ================================================================== *)

Module Js.

(** [String.prototype.toLowerCase].  Below U+0100 the cased letters with
    a lowercase form are A - Z (U+0041 - U+005A) and the accented capitals
    U+00C0 - U+00DE without the multiplication sign U+00D7; each maps to
    the code unit 32 places up, and every other code unit to itself. *)
Definition lower_char (c : ascii) : ascii :=
  let n := nat_of_ascii c in
  if ((65 <=? n)%nat && (n <=? 90)%nat)
     || ((192 <=? n)%nat && (n <=? 222)%nat && negb (n =? 215)%nat)
  then ascii_of_nat (n + 32) else c.

Fixpoint toLowerCase (s : string) : string :=
  match s with
  | EmptyString => EmptyString
  | String c r => String (lower_char c) (toLowerCase r)
  end.

Fixpoint drop (n : nat) (s : string) : string :=
  match n, s with
  | O, _ => s
  | S n', String _ r => drop n' r
  | S _, EmptyString => EmptyString
  end.

(** [String.prototype.replace] with a string pattern: only the FIRST
    occurrence of [pat] is replaced (an empty pattern matches at 0). *)
Fixpoint replace (pat rep s : string) : string :=
  if String.prefix pat s then rep ++ drop (String.length pat) s
  else match s with
       | EmptyString => EmptyString
       | String c r => String c (replace pat rep r)
       end.

(** [Array.prototype.includes] on an array of strings. *)
Definition includes (l : list string) (x : string) : bool :=
  existsb (String.eqb x) l.

(** [Array.prototype.some]. *)
Definition some {A} (f : A -> bool) (l : list A) : bool := existsb f l.

(** [Array.prototype.sort] with a comparator.  The language requires the
    sort to be stable: [b] is moved before [a] only when [cmp a b > 0].
    For a consistent comparator the result is unique, and it is the one
    insertion from the right computes. *)
Fixpoint insert {A} (cmp : A -> A -> Z) (x : A) (l : list A) : list A :=
  match l with
  | [] => [x]
  | y :: r => if (cmp x y <=? 0)%Z then x :: l else y :: insert cmp x r
  end.

Definition sort {A} (cmp : A -> A -> Z) (l : list A) : list A :=
  fold_right (insert cmp) [] l.

End Js.

(* ================================================================== *)
(** * Tables of named values *)
(* ================================================================== *)

(** A table of named values in the order the names were added: the
    fields of a parsed JSON body or of a stored document, and the header
    table of a response.  [set] on a name that is there keeps the name's
    place.  The route reads such tables only at names that
    [Object.prototype] does not answer to ([skills], [userId], [_id],
    ...). *)
Module Obj.

Definition t (V : Type) := list (string * V).

Definition empty {V} : t V := [].

Fixpoint get {V} (o : t V) (k : string) : option V :=
  match o with
  | [] => None
  | (k', v) :: r => if k' =? k then Some v else get r k
  end.

Fixpoint set {V} (o : t V) (k : string) (v : V) : t V :=
  match o with
  | [] => [(k, v)]
  | (k', v') :: r => if k' =? k then (k', v) :: r else (k', v') :: set r k v
  end.

(** The names of a table and its values, in the order they were added. *)
Definition names {V} (o : t V) : list string := map fst o.


End Obj.

(* ================================================================== *)
(** * Plain objects used as maps *)
(* ================================================================== *)

(** The object literal [{}] filled by [o[k] = v] with primitive values,
    as the two chart builders use it.  Its own properties are kept in
    creation order; what the language adds to that:
    - [o["__proto__"] = v] runs the setter inherited from
      [Object.prototype], which ignores a primitive [v]: no own property
      is created;
    - [Object.keys] and [Object.values] list the properties whose name is
      an array index (a canonical decimal numeral below 2^32 - 1) first,
      in ascending numeric order, and the others after them in creation
      order;
    - reading [o[k]] falls back on [Object.prototype] when [o] has no own
      property [k] (see [Page.read]). *)
Module JsObject.

Definition t (V : Type) := list (string * V).

Definition empty {V} : t V := [].

Definition set {V} (o : t V) (k : string) (v : V) : t V :=
  if k =? "__proto__" then o else Obj.set o k v.

Definition getOwn {V} (o : t V) (k : string) : option V := Obj.get o k.

Definition digit (c : ascii) : option N :=
  let n := N_of_ascii c in
  if (48 <=? n)%N && (n <=? 57)%N then Some (n - 48)%N else None.

(** The value of a string of decimal digits, after the digits [acc]. *)
Fixpoint numeral (acc : N) (s : string) : option N :=
  match s with
  | EmptyString => Some acc
  | String c r =>
      match digit c with
      | Some d => numeral (10 * acc + d)%N r
      | None => None
      end
  end.

(** The array index a property name denotes: "0", or digits without a
    leading zero, of value at most 2^32 - 2. *)
Definition arrayIndex (k : string) : option N :=
  match k with
  | EmptyString => None
  | String c r =>
      match digit c with
      | None => None
      | Some d =>
          if (d =? 0)%N then
            match r with EmptyString => Some 0%N | _ => None end
          else
            match numeral d r with
            | Some n => if (n <=? 4294967294)%N then Some n else None
            | None => None
            end
      end
  end.

Definition isIndex (k : string) : bool :=
  match arrayIndex k with Some _ => true | None => false end.

Definition indexOf (k : string) : Z :=
  match arrayIndex k with Some n => Z.of_N n | None => 0%Z end.

(** The own properties in the order the language enumerates them. *)
Definition ownProperties {V} (o : t V) : t V :=
  (Js.sort (fun a b => (indexOf (fst a) - indexOf (fst b))%Z)
           (filter (fun kv => isIndex (fst kv)) o)
   ++ filter (fun kv => negb (isIndex (fst kv))) o)%list.

(** [Object.keys(o)] and [Object.values(o)] *)
Definition keys {V} (o : t V) : list string := map fst (ownProperties o).

Definition values {V} (o : t V) : list V := map snd (ownProperties o).

(** What [Object.prototype] answers to, each answer by its conversion to
    a string as V8 and JavaScriptCore print it (the text of a native
    function differs between engines; the names do not). *)
Definition prototypeNames : list string :=
  ["constructor"; "__defineGetter__"; "__defineSetter__"; "hasOwnProperty";
   "__lookupGetter__"; "__lookupSetter__"; "isPrototypeOf";
   "propertyIsEnumerable"; "toString"; "valueOf"; "toLocaleString"].

Definition prototype (k : string) : option string :=
  if k =? "__proto__" then Some "[object Object]"
  else if k =? "constructor" then Some "function Object() { [native code] }"
  else if existsb (String.eqb k) prototypeNames
       then Some ("function " ++ k ++ "() { [native code] }")
       else None.

End JsObject.

(* ================================================================== *)
(** * The catalog: [skillsJobsData] *)
(* ================================================================== *)

Module Skill.
Record t := mk { id : Z; name : string }.
End Skill.

Module Job.
Record t := mk {
  id : Z;
  title : string;
  description : string;
  category : string;
  type : string;
  tags : list string
}.
End Job.

(** A record of [allUsers], as returned by GET /dashboard/users.  The
    page tests [user.skills] before it calls [includes] on it: [None] is
    a record without the field. *)
Module User.
Record t := mk {
  userId : string;
  userEmail : string;
  skills : option (list string)
}.
End User.

(* ================================================================== *)
(** * The page component: matcher *)
(* ================================================================== *)

Module Page.

(** [job.tags.some(tag => userSkills.includes(tag))] *)
Definition hasMatchingSkill (userSkills : list string) (job : Job.t) : bool :=
  Js.some (fun tag => Js.includes userSkills tag) (Job.tags job).

(** [job.type.toLowerCase().replace('-', '')] *)
Definition normalizedType (job : Job.t) : string :=
  Js.replace "-" "" (Js.toLowerCase (Job.type job)).

(** [jobFilter === 'all' || job.type.toLowerCase().replace('-', '') === jobFilter] *)
Definition matchesFilter (jobFilter : string) (job : Job.t) : bool :=
  (jobFilter =? "all") || (normalizedType job =? jobFilter).

(** [a.tags.filter(tag => userSkills.includes(tag)).length] *)
Definition matches (userSkills : list string) (job : Job.t) : Z :=
  Z.of_nat (List.length (filter (fun tag => Js.includes userSkills tag) (Job.tags job))).

(** The comparator handed to [sort]: [bMatches - aMatches]. *)
Definition byMatches (userSkills : list string) (a b : Job.t) : Z :=
  (matches userSkills b - matches userSkills a)%Z.

(** [findMatchedJobs]: the value it passes to [setMatchedJobs], as a
    function of the catalog's jobs and of the state it reads. *)
Definition findMatchedJobs
  (jobs : list Job.t) (userSkills : list string) (jobFilter : string)
  : list Job.t :=
  if (List.length userSkills =? 0)%nat then []
  else
    let filtered :=
      filter (fun job =>
                hasMatchingSkill userSkills job && matchesFilter jobFilter job)
             jobs in
    Js.sort (byMatches userSkills) filtered.

(* ------------------------------------------------------------------ *)
(** ** The page component: dashboard *)

(** What the two chart builders compute: the labels and the data of the
    single dataset (colours and captions are constants). *)
Record ChartData (V : Type) := mkChart { labels : list string; data : list V }.
Arguments mkChart {V} labels data.
Arguments labels {V} c.
Arguments data {V} c.

(** [user.skills && user.skills.includes(name)] *)
Definition hasSkill (name : string) (user : User.t) : bool :=
  match User.skills user with
  | Some l => Js.includes l name
  | None => false
  end.

(** [allUsers.filter(user => ...).length] *)
Definition usersWith (allUsers : list User.t) (name : string) : Z :=
  Z.of_nat (List.length (filter (hasSkill name) allUsers)).

(** The object [skillCounts] after the [forEach] over the catalog. *)
Definition skillCounts (skills : list Skill.t) (allUsers : list User.t)
  : JsObject.t Z :=
  fold_left
    (fun o skill =>
       JsObject.set o (Skill.name skill)
                    (usersWith allUsers (Skill.name skill)))
    skills JsObject.empty.

Definition getSkillFrequencyData
  (skills : list Skill.t) (allUsers : list User.t) : ChartData Z :=
  let skillCounts := skillCounts skills allUsers in
  {| labels := JsObject.keys skillCounts; data := JsObject.values skillCounts |}.

(** What [categoryCounts] holds under a name: a number, or the string
    that [+ 1] makes of anything else. *)
Inductive Count :=
| Num (n : Z)
| Text (s : string).

(** What reading [categoryCounts[k]] gives: the own property; or what
    [Object.prototype] answers to [k] (a function, or an object for
    [__proto__]), known here by its conversion to a string; or
    [undefined]. *)
Inductive Read :=
| Own (v : Count)
| Inherited (text : string)
| Undefined.

(** [prototype k] is the string conversion of [Object.prototype[k]] when
    [Object.prototype] answers to [k]. *)
Definition read (prototype : string -> option string)
  (o : JsObject.t Count) (k : string) : Read :=
  match JsObject.getOwn o k with
  | Some v => Own v
  | None =>
      match prototype k with
      | Some text => Inherited text
      | None => Undefined
      end
  end.

(** [(x || 0) + 1]: [undefined], [0] and the empty string give way to
    [0]; a number is incremented; a string, a function or an object is
    turned into a string with "1" appended. *)
Definition orZeroPlusOne (x : Read) : Count :=
  match x with
  | Undefined => Num 1
  | Own (Num n) => Num ((if (n =? 0)%Z then 0 else n) + 1)
  | Own (Text s) => if s =? "" then Num 1 else Text (s ++ "1")
  | Inherited text => Text (text ++ "1")
  end.

(** The object [categoryCounts] after the [forEach] over the jobs. *)
Definition categoryCounts (prototype : string -> option string)
  (jobs : list Job.t) : JsObject.t Count :=
  fold_left
    (fun o job =>
       JsObject.set o (Job.category job)
                    (orZeroPlusOne (read prototype o (Job.category job))))
    jobs JsObject.empty.

Definition getJobDemandData (prototype : string -> option string)
  (jobs : list Job.t) : ChartData Count :=
  let categoryCounts := categoryCounts prototype jobs in
  {| labels := JsObject.keys categoryCounts;
     data := JsObject.values categoryCounts |}.

(** The job types the page knows: the labels of the type badge and of
    the selector's items. *)
Definition jobTypes : list string := ["Permanent"; "Part-Time"; "One-Time"].

(** The values the type selector offers for [jobFilter]
    ([<SelectItem value=...>]); ["all"] is the initial state. *)
Definition filterValues : list string :=
  ["all"; "permanent"; "parttime"; "onetime"].

End Page.

(* ================================================================== *)
(** * The API route *)
(* ================================================================== *)

Module Api.

(** ** Values *)

#[local] Set Warnings "-register-all".

(** The values the route handles: parsed JSON, [undefined], and the
    [Date] and [ObjectId] objects that end up in documents. *)
Inductive JsVal :=
| VUndefined
| VNull
| VBool (b : bool)
| VNum (n : Z)
| VStr (s : string)
| VDate (t : Z)
| VObjectId (n : Z)
| VArr (items : list JsVal)
| VObj (fields : list (string * JsVal)).

(** [!!v] *)
Definition truthy (v : JsVal) : bool :=
  match v with
  | VUndefined | VNull => false
  | VBool b => b
  | VNum n => negb (n =? 0)%Z
  | VStr s => negb (s =? "")
  | VDate _ | VObjectId _ | VArr _ | VObj _ => true
  end.

(** [Array.isArray(v)] *)
Definition isArray (v : JsVal) : bool :=
  match v with VArr _ => true | _ => false end.

(** [a || b] *)
Definition or_else (a b : JsVal) : JsVal := if truthy a then a else b.

(** A document of a collection, and its fields. *)
Definition Doc := Obj.t JsVal.

Definition field (doc : Doc) (k : string) : JsVal :=
  match Obj.get doc k with Some v => v | None => VUndefined end.

(** ** The world around the route *)

(** The identity the auth provider returns. *)
Module AuthUser.
Record t := mk { id : string; email : string }.
End AuthUser.

Definition user_json (u : AuthUser.t) : JsVal :=
  VObj [("id", VStr (AuthUser.id u)); ("email", VStr (AuthUser.email u))].

(** [{ data: { user, session }, error }] of a provider call; [error] is
    the error's message when there is one. *)
Record AuthReply := mkReply {
  data_user : JsVal;
  data_session : JsVal;
  error : option string
}.

(** What the handler cannot decide: the answers of the auth provider,
    the failures of the database server, the clock and the random
    identifiers. *)
Record Env := mkEnv {
  connect_fails : option string;  (* [client.connect()] rejects with this message *)
  db_fails : option string;       (* a collection operation rejects with this message *)
  getUser : option AuthUser.t;    (* [supabase.auth.getUser()]'s user *)
  signUp : JsVal -> JsVal -> AuthReply;
  signInWithPassword : JsVal -> JsVal -> AuthReply;
  signOut : option string;        (* [signOut()]'s error message *)
  now : Z;                        (* [new Date()] *)
  uuid : string                   (* [uuidv4()] *)
}.

(** The module-level variables [client] and [db] (assigned or not), and
    the two collections with the next fresh [_id]. *)
Record State := mkState {
  client : bool;
  db : bool;
  user_skills : list Doc;
  status_checks : list Doc;
  next_oid : Z
}.

(** ** The monad of the handler: environment, state and exceptions *)

Inductive Result (A : Type) :=
| Return (a : A)
| Throw (message : string).
Arguments Return {A} a.
Arguments Throw {A} message.

Definition M (A : Type) := Env -> State -> Result A * State.

Definition ret {A} (a : A) : M A := fun _ st => (Return a, st).

Definition throw {A} (message : string) : M A := fun _ st => (Throw message, st).

Definition bind {A B} (m : M A) (k : A -> M B) : M B :=
  fun env st =>
    match m env st with
    | (Return a, st') => k a env st'
    | (Throw e, st') => (Throw e, st')
    end.

(** [try { m } catch (error) { handler(error.message) }] *)
Definition try_catch {A} (m : M A) (handler : string -> M A) : M A :=
  fun env st =>
    match m env st with
    | (Return a, st') => (Return a, st')
    | (Throw e, st') => handler e env st'
    end.

Definition ask : M Env := fun env st => (Return env, st).

Notation "x <- c ;; k" := (bind c (fun x => k))
  (at level 61, c at next level, right associativity).

(** Reading a property throws on [null] and [undefined] only. *)
Definition TypeError (base name : string) : string :=
  "Cannot read properties of " ++ base ++ " (reading '" ++ name ++ "')".

Definition prop (v : JsVal) (k : string) : M JsVal :=
  match v with
  | VUndefined => throw (TypeError "undefined" k)
  | VNull => throw (TypeError "null" k)
  | VObj fields => ret (field fields k)
  | _ => ret VUndefined
  end.

(** ** Requests and responses *)

Record Request := mkRequest {
  path : list string;        (* [params.path], [[]] when absent *)
  method : string;
  body : Result JsVal        (* what [request.json()] resolves or rejects with *)
}.

Record Response := mkResponse {
  status : Z;
  headers : Obj.t string;
  json : option JsVal
}.

(** [NextResponse.json(v, { status })] *)
Definition NextResponse_json (v : JsVal) (status : Z) : Response :=
  mkResponse status [("content-type", "application/json")] (Some v).

Definition handleCORS (response : Response) : Response :=
  let h := headers response in
  let h := Obj.set h "Access-Control-Allow-Origin" "*" in
  let h := Obj.set h "Access-Control-Allow-Methods" "GET, POST, PUT, DELETE, OPTIONS" in
  let h := Obj.set h "Access-Control-Allow-Headers" "Content-Type, Authorization" in
  let h := Obj.set h "Access-Control-Allow-Credentials" "true" in
  mkResponse (status response) h (json response).

(** [handleCORS(NextResponse.json(v))] and [..., { status })]. *)
Definition reply (v : JsVal) : Response := handleCORS (NextResponse_json v 200).
Definition reply_status (v : JsVal) (status : Z) : Response :=
  handleCORS (NextResponse_json v status).

Definition OPTIONS : Response := handleCORS (mkResponse 200 [] None).

(** ** The database *)

Definition connectToMongo : M bool :=
  fun env st =>
    if client st then (Return (db st), st)
    else
      let st := mkState true (db st) (user_skills st) (status_checks st) (next_oid st) in
      match connect_fails env with
      | Some e => (Throw e, st)
      | None =>
          let st := mkState true true (user_skills st) (status_checks st) (next_oid st) in
          (Return true, st)
      end.

(** [await db.collection(...).op(...)]: [db] may be [undefined], and the
    server may fail. *)
Definition collection {A} (db : bool) (op : State -> A * State) : M A :=
  fun env st =>
    if db then
      match db_fails env with
      | Some e => (Throw e, st)
      | None => let (a, st') := op st in (Return a, st')
      end
    else (Throw (TypeError "undefined" "collection"), st).

(** The filter [{ userId: id }]. *)
Definition hasUserId (id : string) (doc : Doc) : bool :=
  match Obj.get doc "userId" with
  | Some (VStr s) => s =? id
  | _ => false
  end.

Definition findOne (id : string) (docs : list Doc) : option Doc :=
  find (hasUserId id) docs.

(** [replaceOne({ userId: id }, doc, { upsert: true })]: the first match
    is replaced and keeps its [_id]; without a match [doc] is inserted
    under a fresh [_id]. *)
Fixpoint replaceFirst (id : string) (doc : Doc) (docs : list Doc)
  : option (list Doc) :=
  match docs with
  | [] => None
  | d :: r =>
      if hasUserId id d then Some ((("_id", field d "_id") :: doc) :: r)
      else match replaceFirst id doc r with
           | Some r' => Some (d :: r')
           | None => None
           end
  end.

Definition replaceOne_upsert (id : string) (doc : Doc) (st : State)
  : unit * State :=
  match replaceFirst id doc (user_skills st) with
  | Some docs =>
      (tt, mkState (client st) (db st) docs (status_checks st) (next_oid st))
  | None =>
      (tt, mkState (client st) (db st)
             (user_skills st ++ [("_id", VObjectId (next_oid st)) :: doc])%list
             (status_checks st) (next_oid st + 1)%Z)
  end.

(** [insertOne(doc)] into [status_checks]; the driver adds the [_id] to
    the object it is handed, which is what the caller gets back here. *)
Definition insertOne_status (doc : Doc) (st : State) : Doc * State :=
  let doc' := (doc ++ [("_id", VObjectId (next_oid st))])%list in
  (doc', mkState (client st) (db st) (user_skills st)
           (status_checks st ++ [doc'])%list (next_oid st + 1)%Z).

(** [({ _id, ...rest }) => rest] *)
Definition without_id (doc : Doc) : Doc :=
  filter (fun kv => negb (fst kv =? "_id")) doc.

(** ** Authentication *)

Definition getAuthenticatedUser : M AuthUser.t :=
  env <- ask ;;
  match getUser env with
  | Some user => ret user
  | None => throw "Unauthorized - Please log in"
  end.

Definition request_json (request : Request) : M JsVal :=
  fun _ st => (body request, st).

Definition err (message : string) : JsVal := VObj [("error", VStr message)].

(** The body of every route's own [catch (error)]. *)
Definition unauthorized (message : string) : M Response :=
  ret (reply_status (err message) 401).

(** The (route, method) pairs [handleRoute] has a branch for. *)
Definition routes : list (string * string) :=
  [("/", "GET");
   ("/auth/signup", "POST"); ("/auth/signin", "POST"); ("/auth/signout", "POST");
   ("/auth/user", "GET");
   ("/user/skills", "GET"); ("/user/skills", "POST");
   ("/dashboard/users", "GET");
   ("/jobs/match", "POST");
   ("/status", "POST"); ("/status", "GET")].

Definition handled (route method : string) : bool :=
  existsb (fun rm => (route =? fst rm) && (method =? snd rm)) routes.

Definition internalServerError : Response :=
  reply_status (err "Internal server error") 500.

Definition notFound (route : string) : Response :=
  reply_status (err ("Route " ++ route ++ " not found")) 404.

(** ** [handleRoute] *)

Definition handleRoute (request : Request) : M Response :=
  let route := "/" ++ String.concat "/" (path request) in
  let method := method request in
  let on (r m : string) : bool := (route =? r) && (method =? m) in
  try_catch
    (db <- connectToMongo ;;
     if on "/" "GET" then
       ret (reply (VObj [("message", VStr "WorkWise API - Where Skills Meet Jobs")]))
     else if on "/auth/signup" "POST" then
       body <- request_json request ;;
       email <- prop body "email" ;;
       password <- prop body "password" ;;
       env <- ask ;;
       let r := signUp env email password in
       match error r with
       | Some e => ret (reply_status (err e) 400)
       | None => ret (reply (VObj [("user", data_user r)]))
       end
     else if on "/auth/signin" "POST" then
       body <- request_json request ;;
       email <- prop body "email" ;;
       password <- prop body "password" ;;
       env <- ask ;;
       let r := signInWithPassword env email password in
       match error r with
       | Some e => ret (reply_status (err e) 400)
       | None =>
           ret (reply (VObj [("user", data_user r); ("session", data_session r)]))
       end
     else if on "/auth/signout" "POST" then
       env <- ask ;;
       match signOut env with
       | Some e => ret (reply_status (err e) 400)
       | None => ret (reply (VObj [("message", VStr "Signed out successfully")]))
       end
     else if on "/auth/user" "GET" then
       try_catch
         (user <- getAuthenticatedUser ;;
          ret (reply (VObj [("user", user_json user)])))
         unauthorized
     else if on "/user/skills" "GET" then
       try_catch
         (user <- getAuthenticatedUser ;;
          userSkills <- collection db (fun st =>
            (findOne (AuthUser.id user) (user_skills st), st)) ;;
          let skills :=
            match userSkills with
            | Some doc => field doc "skills"
            | None => VUndefined
            end in
          ret (reply (VObj [("skills", or_else skills (VArr []))])))
         unauthorized
     else if on "/user/skills" "POST" then
       try_catch
         (user <- getAuthenticatedUser ;;
          body <- request_json request ;;
          skills <- prop body "skills" ;;
          if negb (truthy skills) || negb (isArray skills) then
            ret (reply_status (err "Skills array is required") 400)
          else
            env <- ask ;;
            let userSkillsDoc : Doc :=
              [("userId", VStr (AuthUser.id user));
               ("userEmail", VStr (AuthUser.email user));
               ("skills", skills);
               ("updatedAt", VDate (now env))] in
            _ <- collection db
                   (replaceOne_upsert (AuthUser.id user) userSkillsDoc) ;;
            ret (reply (VObj [("message", VStr "Skills updated successfully");
                              ("skills", skills)])))
         unauthorized
     else if on "/dashboard/users" "GET" then
       try_catch
         (user <- getAuthenticatedUser ;;
          users <- collection db (fun st => (user_skills st, st)) ;;
          let cleanedUsers := map without_id users in
          ret (reply (VObj [("users", VArr (map VObj cleanedUsers))])))
         unauthorized
     else if on "/jobs/match" "POST" then
       try_catch
         (user <- getAuthenticatedUser ;;
          body <- request_json request ;;
          skills <- prop body "skills" ;;
          ret (reply (VObj [("message", VStr "Job matching logic placeholder");
                            ("userSkills", skills)])))
         unauthorized
     else if on "/status" "POST" then
       body <- request_json request ;;
       client_name <- prop body "client_name" ;;
       if negb (truthy client_name) then
         ret (reply_status (err "client_name is required") 400)
       else
         env <- ask ;;
         let statusObj : Doc :=
           [("id", VStr (uuid env));
            ("client_name", client_name);
            ("timestamp", VDate (now env))] in
         statusObj <- collection db (insertOne_status statusObj) ;;
         ret (reply (VObj statusObj))
     else if on "/status" "GET" then
       statusChecks <- collection db (fun st =>
         (firstn 1000 (status_checks st), st)) ;;
       let cleanedStatusChecks := map without_id statusChecks in
       ret (reply (VArr (map VObj cleanedStatusChecks)))
     else
       ret (notFound route))
    (fun _ => ret internalServerError).

End Api.

(* ================================================================== *)
(** * Specification-side notions for the matcher *)
(* ================================================================== *)

(** A job shares a tag with the skill set. *)
Definition sharesTag (job : Job.t) (S : list string) : Prop :=
  exists tag, In tag (Job.tags job) /\ In tag S.

(** The spec's words for the type normalisation: lowercased, ALL hyphens
    removed.  Compared with [Page.normalizedType] below. *)
Fixpoint strip_hyphens (s : string) : string :=
  match s with
  | EmptyString => EmptyString
  | String c r =>
      if Ascii.eqb c "-"%char then strip_hyphens r
      else String c (strip_hyphens r)
  end.

Definition spec_normalizedType (job : Job.t) : string :=
  strip_hyphens (Js.toLowerCase (Job.type job)).

Definition hyphen_free (s : string) : Prop := strip_hyphens s = s.

(** Lowercasing, from the table of the letters that have a lowercase
    form: A - Z, and the accented capitals of Latin-1. *)
Definition capitalLetters : string := "ABCDEFGHIJKLMNOPQRSTUVWXYZ".
Definition smallLetters : string := "abcdefghijklmnopqrstuvwxyz".

Definition accentedCapitals : list nat :=
  (seq 192 23 ++ seq 216 7)%list.   (* U+00C0 - U+00D6, U+00D8 - U+00DE *)

Definition casePairs : list (ascii * ascii) :=
  (combine (list_ascii_of_string capitalLetters)
           (list_ascii_of_string smallLetters)
   ++ map (fun n => (ascii_of_nat n, ascii_of_nat (n + 32))) accentedCapitals)%list.

Definition lowercase_letter (c : ascii) : ascii :=
  match find (fun p => Ascii.eqb (fst p) c) casePairs with
  | Some p => snd p
  | None => c
  end.

Fixpoint lowercased (s : string) : string :=
  match s with
  | EmptyString => EmptyString
  | String c r => String (lowercase_letter c) (lowercased r)
  end.

(** A string without its first hyphen: what stands before the first
    hyphen, followed by what stands after it. *)
Fixpoint before_hyphen (s : string) : string :=
  match s with
  | EmptyString => EmptyString
  | String c r =>
      if Ascii.eqb c "-"%char then EmptyString else String c (before_hyphen r)
  end.

Fixpoint after_hyphen (s : string) : string :=
  match s with
  | EmptyString => EmptyString
  | String c r => if Ascii.eqb c "-"%char then r else after_hyphen r
  end.

Definition first_hyphen_removed (s : string) : string :=
  before_hyphen s ++ after_hyphen s.

(** The number of hyphens of a string. *)
Fixpoint hyphens (s : string) : nat :=
  match s with
  | EmptyString => 0
  | String c r => (if Ascii.eqb c "-"%char then 1 else 0) + hyphens r
  end.

(** The number of a job's tags that are among the user's skills (a tag
    listed twice counts twice: [tags] is an array). *)
Fixpoint sharedCount (S : list string) (tags : list string) : nat :=
  match tags with
  | [] => 0
  | tag :: rest =>
      (if in_dec string_dec tag S then 1 else 0) + sharedCount S rest
  end.

(** A job whose type has two hyphens. *)
Definition jobTwoHyphens : Job.t :=
  Job.mk 3 "Job C" "" "Tech" "Part--Time" ["Coding"].

(* ------------------------------------------------------------------ *)
(** ** Specification-side notions for the dashboard *)

(** A user record includes a skill name. *)
Definition holds (name : string) (user : User.t) : Prop :=
  exists l, User.skills user = Some l /\ In name l.

Definition holds_dec (name : string) (user : User.t) :
  {holds name user} + {~ holds name user}.
Proof.
  unfold holds. destruct (User.skills user) as [l|].
  - destruct (in_dec string_dec name l) as [H|H].
    + left. now exists l.
    + right. intros (l' & E & H'). now inversion E; subst.
  - right. intros (l' & E & _). discriminate.
Defined.

(** The number of user records that include a skill name. *)
Fixpoint holders (name : string) (users : list User.t) : nat :=
  match users with
  | [] => 0
  | u :: r => (if holds_dec name u then 1 else 0) + holders name r
  end.

(** The number of jobs of a category. *)
Definition jobsOf (c : string) (jobs : list Job.t) : nat :=
  count_occ string_dec (map Job.category jobs) c.

(** First-seen order: every name once, at the place of its first
    occurrence. *)
Fixpoint first_seen (l : list string) : list string :=
  match l with
  | [] => []
  | x :: r => x :: filter (fun y => negb (y =? x)) (first_seen r)
  end.

(** A name under which an assignment creates a property. *)
Definition settable (k : string) : bool := negb (k =? "__proto__").

(** A name that [Object.keys] lists in creation order: not an array
    index, and not [__proto__] (which never becomes a property). *)
Definition plainName (k : string) : bool :=
  negb (JsObject.isIndex k) && negb (k =? "__proto__").

(** The order of the labels of a chart built from [names]: first the
    names that are array indices, in ascending numeric order, then the
    other names in first-seen order. *)
Definition keyOrder (names labels : list string) : Prop :=
  exists indexed,
    labels = (indexed ++ first_seen (filter plainName names))%list
    /\ StronglySorted
         (fun a b => (JsObject.indexOf a <= JsObject.indexOf b)%Z) indexed
    /\ NoDup indexed
    /\ forall k, In k indexed <-> In k names /\ JsObject.isIndex k = true.

(** [n] times the digit 1. *)
Fixpoint ones (n : nat) : string :=
  match n with
  | 0 => ""
  | S m => String "1" (ones m)
  end.

(** What the job-demand chart shows for a category of [n] jobs: nothing
    for no job and for [__proto__]; the number [n] for a name that
    [Object.prototype] does not answer to; for one it answers to, its
    answer's text followed by one "1" per job. *)
Definition expectedCount (prototype : string -> option string)
  (c : string) (n : nat) : option Page.Count :=
  if c =? "__proto__" then None
  else match n with
       | 0 => None
       | S _ =>
           match prototype c with
           | None => Some (Page.Num (Z.of_nat n))
           | Some text => Some (Page.Text (text ++ ones n))
           end
       end.




Definition indexSkills : list Skill.t :=
  [Skill.mk 1 "b"; Skill.mk 2 "10"; Skill.mk 3 "2"].

(* ------------------------------------------------------------------ *)
(** ** The spec's example catalog *)

Definition jobA : Job.t :=
  Job.mk 1 "Job A" "" "Tech" "Permanent" ["Coding"].
Definition jobB : Job.t :=
  Job.mk 2 "Job B" "" "Creative" "Part-Time" ["Coding"; "Design"].


(** The spec's dashboard example. *)
Definition exampleSkills : list Skill.t :=
  [Skill.mk 1 "Coding"; Skill.mk 2 "Design"; Skill.mk 3 "Writing"].
Definition exampleUsers : list User.t :=
  [User.mk "u1" "a@x" (Some ["Coding"]);
   User.mk "u2" "b@x" (Some ["Coding"; "Design"])].

(* ------------------------------------------------------------------ *)
(** ** Specification-side notions for the API route *)

(** The database connection is there: already open, or this request
    opens it. *)
Definition connected (env : Api.Env) (st : Api.State) : Prop :=
  if Api.client st then Api.db st = true else Api.connect_fails env = None.

(** The module-level handles once the connection is there. *)
Definition opened (st : Api.State) : Api.State :=
  Api.mkState true true (Api.user_skills st) (Api.status_checks st)
              (Api.next_oid st).

(** The route string of a request. *)
Definition route_of (request : Api.Request) : string :=
  "/" ++ String.concat "/" (Api.path request).

(** The body's [skills] field when it is there and is an array. *)
Definition skillsArray (body : Api.JsVal) : option (list Api.JsVal) :=
  match body with
  | Api.VObj fields =>
      match Obj.get fields "skills" with
      | Some (Api.VArr items) => Some items
      | _ => None
      end
  | _ => None
  end.

(** The record POST /user/skills stores. *)
Definition skillsRecord (u : Api.AuthUser.t) (skills : Api.JsVal) (t : Z)
  : Api.Doc :=
  [("userId", Api.VStr (Api.AuthUser.id u));
   ("userEmail", Api.VStr (Api.AuthUser.email u));
   ("skills", skills);
   ("updatedAt", Api.VDate t)].

(** Every answer a computation returns has property [P]. *)
Definition answers (P : Api.Response -> Prop) (m : Api.M Api.Response) : Prop :=
  forall env st response st',
    m env st = (Api.Return response, st') -> P response.

(** A computation that never answers with status 500. *)
Definition never500 (m : Api.M Api.Response) : Prop :=
  answers (fun response => Api.status response <> 500%Z) m.

(** The four headers [handleCORS] sets. *)
Definition cors (response : Api.Response) : Prop :=
  let h := Api.headers response in
  Obj.get h "Access-Control-Allow-Origin" = Some "*"
  /\ Obj.get h "Access-Control-Allow-Methods" =
     Some "GET, POST, PUT, DELETE, OPTIONS"
  /\ Obj.get h "Access-Control-Allow-Headers" =
     Some "Content-Type, Authorization"
  /\ Obj.get h "Access-Control-Allow-Credentials" = Some "true".

(** Reading a property of a value that is neither [null] nor
    [undefined]. *)
Definition read (v : Api.JsVal) (k : string) : Api.JsVal :=
  match v with
  | Api.VObj fields => Api.field fields k
  | _ => Api.VUndefined
  end.

(** The routes that start with [getAuthenticatedUser] inside a
    try/catch of their own. *)
Definition authenticatedRoutes : list (string * string) :=
  [("/auth/user", "GET"); ("/user/skills", "GET"); ("/user/skills", "POST");
   ("/dashboard/users", "GET"); ("/jobs/match", "POST")].

(** A small world: one signed-in user with a stored record of two
    skills and a stale extra field, and a provider that never errs. *)
Definition alice : Api.AuthUser.t := Api.AuthUser.mk "u-1" "alice@example.org".
Definition bob : Api.AuthUser.t := Api.AuthUser.mk "u-2" "bob@example.org".

Definition quiet (email password : Api.JsVal) : Api.AuthReply :=
  Api.mkReply Api.VNull Api.VNull None.

Definition env_ok : Api.Env :=
  Api.mkEnv None None (Some alice) quiet quiet None 1700000000 "uuid-1".

Definition env_bob : Api.Env :=
  Api.mkEnv None None (Some bob) quiet quiet None 1700000000 "uuid-1".

Definition env_db_down : Api.Env :=
  Api.mkEnv None (Some "connection reset") (Some alice) quiet quiet None
            1700000000 "uuid-1".

Definition aliceRecord : Api.Doc :=
  [("_id", Api.VObjectId 1);
   ("userId", Api.VStr "u-1");
   ("userEmail", Api.VStr "old@example.org");
   ("skills", Api.VArr [Api.VStr "Coding"; Api.VStr "Design"]);
   ("updatedAt", Api.VDate 1600000000);
   ("note", Api.VStr "stale")].

Definition st0 : Api.State := Api.mkState false false [aliceRecord] [] 2.

Definition fourSkills : Api.JsVal :=
  Api.VArr [Api.VStr "Coding"; Api.VStr "Design"; Api.VStr "Writing";
            Api.VStr "Cooking"].

Definition GET_skills : Api.Request :=
  Api.mkRequest ["user"; "skills"] "GET" (Api.Throw "Unexpected end of JSON input").

Definition POST_skills (body : Api.JsVal) : Api.Request :=
  Api.mkRequest ["user"; "skills"] "POST" (Api.Return body).

(* ================================================================== *)
(** * The rest of the page component *)
(* ================================================================== *)

Module PageState.

(** [handleSkillSelection]: the next value of [selectedSkills] after a
    click on a skill button (no [setSelectedSkills] call leaves it as it
    is). *)
Definition handleSkillSelection
  (selectedSkills : list string) (skillName : string) : list string :=
  if Js.includes selectedSkills skillName then
    filter (fun s => negb (s =? skillName)) selectedSkills
  else if (List.length selectedSkills <? 3)%nat then
    (selectedSkills ++ [skillName])%list
  else selectedSkills.

End PageState.

(* ------------------------------------------------------------------ *)
(** ** Further specification-side notions *)

(** The test [findMatchedJobs] filters the catalog with. *)
Definition included (S : list string) (f : string) (job : Job.t) : bool :=
  Page.hasMatchingSkill S job && Page.matchesFilter f job.

(* ------------------------------------------------------------------ *)
(** ** Specification-side notions for the store *)

(** Under a fixed environment, a computation only moves the state along
    [R], whether it returns or throws. *)
Definition preserves {A} (env : Api.Env)
  (R : Api.State -> Api.State -> Prop) (m : Api.M A) : Prop :=
  forall st r st', m env st = (r, st') -> R st st'.

(** The state a request leaves behind. *)
Definition state_after (request : Api.Request) (env : Api.Env)
  (st : Api.State) : Api.State :=
  snd (Api.handleRoute request env st).

(** The answer to a request. *)
Definition answer_to (request : Api.Request) (env : Api.Env)
  (st : Api.State) : Api.Result Api.Response :=
  fst (Api.handleRoute request env st).

(** The number of records stored for a user id. *)
Definition recordsOf (id : string) (docs : list Api.Doc) : nat :=
  List.length (filter (Api.hasUserId id) docs).

(** The data model's "one record per user". *)
Definition one_per_user (docs : list Api.Doc) : Prop :=
  forall id, (recordsOf id docs <= 1)%nat.

(** The record POST /status logs, before the driver adds the [_id]. *)
Definition statusRecord (id : string) (client_name : Api.JsVal) (t : Z)
  : Api.Doc :=
  [("id", Api.VStr id); ("client_name", client_name);
   ("timestamp", Api.VDate t)].

(** The module state of a fresh process: nothing assigned yet. *)
Definition fresh (st : Api.State) : Prop :=
  Api.client st = false /\ Api.db st = false.

(** The module state after a connection attempt that failed: [client]
    is assigned, [db] is as it was. *)
Definition half_open (st : Api.State) : Api.State :=
  Api.mkState true (Api.db st) (Api.user_skills st) (Api.status_checks st)
              (Api.next_oid st).

(** The message of reading [collection] off the unassigned [db]. *)
Definition no_db : string := Api.TypeError "undefined" "collection".

(** A healthy server and a signed-in user, for requests that come after
    a failure. *)
Definition env_down : Api.Env :=
  Api.mkEnv (Some "ECONNREFUSED") None (Some alice) quiet quiet None
            1700000000 "uuid-1".

Definition st_fresh : Api.State := Api.mkState false false [aliceRecord] [] 2.

Definition bobRecord : Api.Doc :=
  [("_id", Api.VObjectId 2);
   ("userId", Api.VStr "u-2");
   ("userEmail", Api.VStr "bob@example.org");
   ("skills", Api.VArr [Api.VStr "Writing"]);
   ("updatedAt", Api.VDate 1650000000)].

(** A store with a record for each of two users. *)
Definition st_two : Api.State :=
  Api.mkState true true [aliceRecord; bobRecord] [] 3.

Definition probeRecord : Api.Doc :=
  [("id", Api.VStr "uuid-0"); ("client_name", Api.VStr "probe");
   ("timestamp", Api.VDate 1600000000); ("_id", Api.VObjectId 7)].

(** A status log of 1000 records. *)
Definition st_full : Api.State :=
  Api.mkState true true [aliceRecord] (repeat probeRecord 1000) 1007.

Definition GET_status : Api.Request :=
  Api.mkRequest ["status"] "GET" (Api.Throw "Unexpected end of JSON input").

Definition POST_status (body : Api.JsVal) : Api.Request :=
  Api.mkRequest ["status"] "POST" (Api.Return body).

Definition GET_dashboard : Api.Request :=
  Api.mkRequest ["dashboard"; "users"] "GET"
                (Api.Throw "Unexpected end of JSON input").
(* ================================================================== *)
(** * Facts about the built-ins *)
(* ================================================================== *)

Section SortByKey.

Context {A : Type}.
Variable key : A -> Z.

(** The comparator [(a, b) => key(b) - key(a)]: descending by key. *)
Let desc (a b : A) : Z := (key b - key a)%Z.
Let ge_key (a b : A) : Prop := (key b <= key a)%Z.

Lemma insert_perm (cmp : A -> A -> Z) x l :
  Permutation (Js.insert cmp x l) (x :: l).
Proof.
  induction l as [|y r IH]; simpl.
  - apply Permutation_refl.
  - destruct (cmp x y <=? 0)%Z.
    + apply Permutation_refl.
    + eapply perm_trans; [apply perm_skip, IH | apply perm_swap].
Qed.

Lemma sort_perm (cmp : A -> A -> Z) l : Permutation (Js.sort cmp l) l.
Proof.
  induction l as [|x r IH]; simpl.
  - constructor.
  - eapply perm_trans; [apply insert_perm | apply perm_skip, IH].
Qed.

Lemma sort_In (cmp : A -> A -> Z) l x : In x (Js.sort cmp l) <-> In x l.
Proof.
  split; apply Permutation_in;
    [apply sort_perm | apply Permutation_sym, sort_perm].
Qed.

Lemma insert_sorted x l :
  StronglySorted ge_key l -> StronglySorted ge_key (Js.insert desc x l).
Proof.
  induction 1 as [|y r Hr IH Hy]; simpl.
  - repeat constructor.
  - destruct (desc x y <=? 0)%Z eqn:E.
    + apply Z.leb_le in E. unfold desc in E.
      constructor; [constructor; assumption|].
      constructor; [unfold ge_key; lia|].
      eapply Forall_impl; [|exact Hy]. unfold ge_key. intros; lia.
    + apply Z.leb_gt in E. unfold desc in E.
      constructor; [assumption|].
      eapply Permutation_Forall;
        [apply Permutation_sym, insert_perm|].
      constructor; [unfold ge_key; lia | assumption].
Qed.

Lemma sort_sorted l : StronglySorted ge_key (Js.sort desc l).
Proof.
  induction l; simpl; [constructor | now apply insert_sorted].
Qed.

(** Insertion never carries an element past one of the same key. *)
Lemma filter_insert_key (p : A -> bool) k x l :
  filter (fun a => (key a =? k)%Z && p a) (Js.insert desc x l) =
  filter (fun a => (key a =? k)%Z && p a) (x :: l).
Proof.
  induction l as [|y r IH]; [reflexivity|].
  cbn [Js.insert].
  destruct (desc x y <=? 0)%Z eqn:E; [reflexivity|].
  apply Z.leb_gt in E. unfold desc in E.
  cbn [filter] in *. rewrite IH.
  destruct (key x =? k)%Z eqn:Ex; cbn [andb]; [|reflexivity].
  apply Z.eqb_eq in Ex.
  assert ((key y =? k)%Z = false) as -> by (apply Z.eqb_neq; lia).
  reflexivity.
Qed.

Lemma sort_stable (p : A -> bool) k l :
  filter (fun a => (key a =? k)%Z && p a) (Js.sort desc l) =
  filter (fun a => (key a =? k)%Z && p a) l.
Proof.
  induction l as [|x r IH]; [reflexivity|].
  cbn [Js.sort fold_right]. fold (Js.sort desc r).
  rewrite filter_insert_key. cbn [filter]. now rewrite IH.
Qed.

End SortByKey.

(** A filtered list that splits at [a] comes from a list that splits at [a]. *)
Lemma filter_split {A} (f : A -> bool) a :
  forall l u v,
    filter f l = (u ++ a :: v)%list ->
    exists l1 l2, l = (l1 ++ a :: l2)%list /\ filter f l1 = u /\ filter f l2 = v.
Proof.
  induction l as [|x l IH]; intros u v H; simpl in H.
  - now destruct u.
  - destruct (f x) eqn:Fx.
    + destruct u as [|y u]; simpl in H; injection H as Hx Hl.
      * subst x. exists [], l. auto.
      * subst y. destruct (IH _ _ Hl) as (l1 & l2 & -> & <- & <-).
        exists (x :: l1), l2. simpl. rewrite Fx. auto.
    + destruct (IH _ _ H) as (l1 & l2 & -> & <- & <-).
      exists (x :: l1), l2. simpl. rewrite Fx. auto.
Qed.

Lemma filter_twice {A} (f g : A -> bool) (l : list A) :
  filter f (filter g l) = filter (fun x => f x && g x) l.
Proof.
  induction l as [|x l IH]; [reflexivity|].
  simpl. destruct (g x); simpl.
  - rewrite andb_true_r. destruct (f x); now rewrite IH.
  - now rewrite andb_false_r.
Qed.

Lemma filter_true {A} (l : list A) : filter (fun _ => true) l = l.
Proof. induction l; simpl; congruence. Qed.

Lemma filter_none {A} (f : A -> bool) (l : list A) :
  (forall x, In x l -> f x = false) -> filter f l = [].
Proof.
  induction l as [|x l IH]; intros H; [reflexivity|].
  simpl. rewrite (H x (or_introl eq_refl)). apply IH.
  intros y Hy. apply H. now right.
Qed.

(** Removing the first hyphen leaves the hyphen-stripped text unchanged. *)
Lemma strip_replace_first s :
  strip_hyphens (Js.replace "-" "" s) = strip_hyphens s.
Proof.
  induction s as [|c r IH]; [reflexivity|].
  cbn [Js.replace String.prefix].
  destruct (ascii_dec "-" c) as [<-|Hc].
  - destruct r; reflexivity.
  - cbn [strip_hyphens]. now rewrite IH.
Qed.

Lemma includes_In l x : Js.includes l x = true <-> In x l.
Proof.
  unfold Js.includes. rewrite existsb_exists. split.
  - intros (y & Hy & E). apply String.eqb_eq in E. now subst.
  - intros H. exists x. split; [assumption | apply String.eqb_refl].
Qed.

Lemma hasMatchingSkill_sharesTag S job :
  Page.hasMatchingSkill S job = true <-> sharesTag job S.
Proof.
  unfold Page.hasMatchingSkill, Js.some, sharesTag.
  rewrite existsb_exists.
  split; intros (tag & Ht & Hs); exists tag; split; trivial;
    now apply includes_In.
Qed.

Lemma matchesFilter_spec f job :
  Page.matchesFilter f job = true <-> f = "all" \/ Page.normalizedType job = f.
Proof.
  unfold Page.matchesFilter.
  rewrite orb_true_iff, !String.eqb_eq. tauto.
Qed.

Lemma sharesTag_nil job : ~ sharesTag job [].
Proof. intros (tag & _ & []). Qed.

(** Membership in the matcher's output, for every skill set. *)
Lemma findMatchedJobs_In J S f job :
  In job (Page.findMatchedJobs J S f) <->
  In job J /\ Page.hasMatchingSkill S job = true /\ Page.matchesFilter f job = true.
Proof.
  unfold Page.findMatchedJobs.
  destruct S as [|s S]; cbn [List.length Nat.eqb].
  - split; [intros [] | intros (_ & H & _)].
    apply hasMatchingSkill_sharesTag in H. now apply sharesTag_nil in H.
  - rewrite sort_In, filter_In, andb_true_iff. tauto.
Qed.

Lemma lower_char_hyphen c :
  Ascii.eqb (Js.lower_char c) "-"%char = Ascii.eqb c "-"%char.
Proof. destruct c as [[] [] [] [] [] [] [] []]; reflexivity. Qed.

Lemma hyphens_toLowerCase s : hyphens (Js.toLowerCase s) = hyphens s.
Proof.
  induction s as [|c r IH]; [reflexivity|].
  cbn [Js.toLowerCase hyphens]. now rewrite lower_char_hyphen, IH.
Qed.

Lemma strip_hyphens_length s :
  (String.length (strip_hyphens s) <= String.length s)%nat.
Proof.
  induction s as [|c r IH]; [reflexivity|].
  cbn [strip_hyphens]. destruct (Ascii.eqb c "-"); cbn [String.length]; lia.
Qed.

Lemma hyphen_free_hyphens s : hyphen_free s <-> hyphens s = 0.
Proof.
  unfold hyphen_free. induction s as [|c r IH]; [easy|].
  cbn [strip_hyphens hyphens]. destruct (Ascii.eqb c "-").
  - split; [|discriminate]. intros H.
    pose proof (strip_hyphens_length r) as L. rewrite H in L.
    cbn [String.length] in L. lia.
  - rewrite Nat.add_0_l, <- IH. split; [now intros [= ->] | now intros ->].
Qed.

Lemma hyphens_replace_first s :
  hyphens (Js.replace "-" "" s) = pred (hyphens s).
Proof.
  induction s as [|c r IH]; [reflexivity|].
  cbn [Js.replace String.prefix hyphens].
  destruct (ascii_dec "-" c) as [<-|Hc].
  - destruct r; reflexivity.
  - cbn [hyphens]. rewrite IH.
    destruct (Ascii.eqb c "-") eqn:E; [|reflexivity].
    apply Ascii.eqb_eq in E. now elim Hc.
Qed.

Lemma insert_ext {A} (c1 c2 : A -> A -> Z) :
  (forall a b, c1 a b = c2 a b) ->
  forall x l, Js.insert c1 x l = Js.insert c2 x l.
Proof.
  intros H x. induction l as [|y r IH]; [reflexivity|].
  cbn [Js.insert]. now rewrite H, IH.
Qed.

Lemma sort_ext {A} (c1 c2 : A -> A -> Z) :
  (forall a b, c1 a b = c2 a b) -> forall l, Js.sort c1 l = Js.sort c2 l.
Proof.
  intros H. induction l as [|x l IH]; [reflexivity|].
  cbn [Js.sort fold_right].
  fold (Js.sort c1 l). fold (Js.sort c2 l).
  rewrite IH. now apply insert_ext.
Qed.


Lemma lowercase_letter_lower_char c : lowercase_letter c = Js.lower_char c.
Proof. destruct c as [[] [] [] [] [] [] [] []]; reflexivity. Qed.

(** The table-driven lowercasing is [toLowerCase]. *)
Lemma lowercased_toLowerCase s : lowercased s = Js.toLowerCase s.
Proof.
  induction s as [|c r IH]; [reflexivity|].
  cbn [lowercased Js.toLowerCase]. now rewrite lowercase_letter_lower_char, IH.
Qed.

(** [replace('-', '')] takes out the first hyphen. *)
Lemma replace_first_hyphen s : Js.replace "-" "" s = first_hyphen_removed s.
Proof.
  unfold first_hyphen_removed.
  induction s as [|c r IH]; [reflexivity|].
  cbn [Js.replace String.prefix before_hyphen after_hyphen].
  destruct (ascii_dec "-" c) as [<-|Hc].
  - destruct r; reflexivity.
  - destruct (Ascii.eqb c "-") eqn:E.
    + apply Ascii.eqb_eq in E. now elim Hc.
    + cbn [append]. now rewrite IH.
Qed.

Lemma normalizedType_words job :
  Page.normalizedType job = first_hyphen_removed (lowercased (Job.type job)).
Proof.
  unfold Page.normalizedType.
  now rewrite replace_first_hyphen, lowercased_toLowerCase.
Qed.

(** With at most one hyphen, taking out the first takes out all. *)
Lemma first_hyphen_is_all s :
  (hyphens s <= 1)%nat -> first_hyphen_removed s = strip_hyphens s.
Proof.
  intros H. rewrite <- replace_first_hyphen.
  rewrite <- (strip_replace_first s).
  symmetry. apply hyphen_free_hyphens. rewrite hyphens_replace_first. lia.
Qed.

Lemma hyphens_lowercased s : hyphens (lowercased s) = hyphens s.
Proof. rewrite lowercased_toLowerCase. apply hyphens_toLowerCase. Qed.

Lemma sharedCount_matches S job :
  Page.matches S job = Z.of_nat (sharedCount S (Job.tags job)).
Proof.
  unfold Page.matches. f_equal.
  induction (Job.tags job) as [|tag rest IH]; [reflexivity|].
  cbn [filter sharedCount].
  destruct (in_dec string_dec tag S) as [H|H].
  - apply includes_In in H. rewrite H. cbn. now rewrite IH.
  - destruct (Js.includes S tag) eqn:E; [apply includes_In in E; contradiction|].
    exact IH.
Qed.

(** For a filter value without a hyphen, passing the code's test means
    the fully hyphen-stripped lowercase type equals the filter. *)
Lemma normalizedType_hyphen_free f job :
  hyphen_free f -> Page.normalizedType job = f -> spec_normalizedType job = f.
Proof.
  unfold hyphen_free, Page.normalizedType, spec_normalizedType.
  intros Hf E. rewrite <- (strip_replace_first (Js.toLowerCase (Job.type job))).
  now rewrite E.
Qed.

(* ================================================================== *)
(** * The matcher: claims C1 - C4 *)
(* ================================================================== *)

(** Where the first hyphen was the only one, the matcher's
    normalisation is the spec's. *)
Lemma normalizedType_agree job :
  hyphen_free (Page.normalizedType job) ->
  Page.normalizedType job = spec_normalizedType job.
Proof.
  unfold hyphen_free, Page.normalizedType, spec_normalizedType.
  intros H. rewrite <- H at 1. apply strip_replace_first.
Qed.

Lemma normalizedType_jobTypes job :
  In (Job.type job) Page.jobTypes ->
  Page.normalizedType job = spec_normalizedType job.
Proof.
  intros H. apply normalizedType_agree.
  unfold hyphen_free, Page.normalizedType.
  simpl in H. destruct H as [<-|[<-|[<-|[]]]]; reflexivity.
Qed.

(** C1, as the code has it.  For every catalog [J], skill set [S] and
    type filter [f], a job is in the matcher's output exactly when it is
    a job of [J] that shares at least one tag with [S] and ([f] is "all"
    or the job's type, lowercased and with its FIRST hyphen removed,
    equals [f]).  For a type with at most one hyphen that is the type
    lowercased with its hyphens removed.  In particular every job of
    [match(J, S, all)] shares a tag with [S], and a job sharing no tag
    is in no output. *)
Theorem C1_match_membership :
  forall (J : list Job.t) (S : list string) (f : string),
    (forall job,
        In job (Page.findMatchedJobs J S f) <->
        In job J /\ sharesTag job S /\
        (f = "all" \/ first_hyphen_removed (lowercased (Job.type job)) = f))
    /\ (forall job,
          (hyphens (Job.type job) <= 1)%nat ->
          (In job (Page.findMatchedJobs J S f) <->
           In job J /\ sharesTag job S /\
           (f = "all" \/ strip_hyphens (lowercased (Job.type job)) = f)))
    /\ (forall job, In job (Page.findMatchedJobs J S "all") -> sharesTag job S)
    /\ (forall job, ~ sharesTag job S -> ~ In job (Page.findMatchedJobs J S f)).
Proof.
  intros J S f.
  assert (Hshare : forall g job,
             In job (Page.findMatchedJobs J S g) -> sharesTag job S).
  { intros g job H. apply findMatchedJobs_In in H as (_ & H & _).
    now apply hasMatchingSkill_sharesTag. }
  assert (Hiff : forall job,
             In job (Page.findMatchedJobs J S f) <->
             In job J /\ sharesTag job S /\
             (f = "all" \/ first_hyphen_removed (lowercased (Job.type job)) = f)).
  { intros job. rewrite findMatchedJobs_In.
    rewrite hasMatchingSkill_sharesTag, matchesFilter_spec.
    now rewrite normalizedType_words. }
  split; [exact Hiff | split; [|split]].
  - intros job Ht. rewrite Hiff.
    rewrite first_hyphen_is_all by now rewrite hyphens_lowercased.
    reflexivity.
  - intros job. apply Hshare.
  - intros job Hn H. apply Hn. now apply (Hshare f).
Qed.

(** C1 does not hold in the spec's words ("lowercased, hyphens removed"):
    a job of type "Part--Time" that shares a tag has the normalized type
    "parttime" in those words, and the filter "parttime" leaves it out. *)
Lemma C1_two_hyphens_not_matched :
  In jobTwoHyphens [jobTwoHyphens]
  /\ sharesTag jobTwoHyphens ["Coding"]
  /\ strip_hyphens (lowercased (Job.type jobTwoHyphens)) = "parttime"
  /\ ~ In jobTwoHyphens
         (Page.findMatchedJobs [jobTwoHyphens] ["Coding"] "parttime").
Proof.
  split; [now left|]. split; [exists "Coding"; split; now left|].
  split; [reflexivity|]. intros [].
Qed.

(** C2.  For every catalog [J] and skill set [S] (empty or not) the
    matcher's output is sorted in descending order of the number of the
    job's tags that are among [S]; the jobs of one count appear in the
    output exactly as they appear among the catalog's included jobs; so
    whenever [a] stands before [b] in the output and both have the same
    count, [a] stands before [b] in the catalog. *)
Theorem C2_match_sorted_stable :
  forall (J : list Job.t) (S : list string) (f : string),
    let out := Page.findMatchedJobs J S f in
    let count job := sharedCount S (Job.tags job) in
    let included job := Page.hasMatchingSkill S job && Page.matchesFilter f job in
    StronglySorted (fun a b => (count b <= count a)%nat) out
    /\ (forall k,
          filter (fun job => (count job =? k)%nat) out =
          filter (fun job => (count job =? k)%nat && included job) J)
    /\ (forall a b l1 l2 l3,
          out = (l1 ++ a :: l2 ++ b :: l3)%list ->
          count a = count b ->
          exists m1 m2 m3, J = (m1 ++ a :: m2 ++ b :: m3)%list).
Proof.
  intros J S f out count included.
  assert (Hcount : forall job k,
             (count job =? k)%nat = (Page.matches S job =? Z.of_nat k)%Z).
  { intros job k. rewrite sharedCount_matches. fold (count job).
    destruct (count job =? k)%nat eqn:E.
    - apply Nat.eqb_eq in E. subst. symmetry. apply Z.eqb_refl.
    - apply Nat.eqb_neq in E. symmetry. apply Z.eqb_neq. lia. }
  assert (Hsorted : StronglySorted (fun a b => (count b <= count a)%nat) out).
  { assert (H : StronglySorted
                  (fun a b => (Page.matches S b <= Page.matches S a)%Z) out).
    { unfold out, Page.findMatchedJobs.
      destruct (List.length S =? 0)%nat; [constructor|].
      apply (sort_sorted (Page.matches S)). }
    induction H as [|x l Hl IH Hx]; constructor; [exact IH|].
    eapply Forall_impl; [|exact Hx]. cbn. intros b Hb.
    rewrite !sharedCount_matches in Hb. unfold count. lia. }
  assert (Hstable : forall k,
    filter (fun job => (count job =? k)%nat) out =
    filter (fun job => (count job =? k)%nat && included job) J).
  { intros k.
    rewrite (filter_ext _ (fun job => (Page.matches S job =? Z.of_nat k)%Z))
      by (intros; apply Hcount).
    rewrite (filter_ext (fun job => (count job =? k)%nat && included job)
               (fun job => (Page.matches S job =? Z.of_nat k)%Z && included job))
      by (intros; now rewrite Hcount).
    unfold out, Page.findMatchedJobs.
    destruct S as [|s S']; cbn [List.length Nat.eqb].
    - symmetry. apply filter_none. intros job _. unfold included.
      destruct (Page.hasMatchingSkill [] job) eqn:E.
      + apply hasMatchingSkill_sharesTag in E. now apply sharesTag_nil in E.
      + now rewrite andb_false_r.
    - set (S0 := s :: S') in *.
      transitivity
        (filter (fun job => (Page.matches S0 job =? Z.of_nat k)%Z && true)
           (Js.sort (Page.byMatches S0) (filter included J))).
      { apply filter_ext. intros job. now rewrite andb_true_r. }
      unfold Page.byMatches.
      rewrite (sort_stable (Page.matches S0) (fun _ => true) (Z.of_nat k)).
      rewrite filter_twice. apply filter_ext. intros job.
      now rewrite andb_true_r. }
  repeat split; trivial.
  intros a b l1 l2 l3 Hout Hab.
  pose proof (Hstable (count a)) as Hk.
  rewrite Hout in Hk.
  rewrite filter_app in Hk. cbn [filter] in Hk.
  rewrite Nat.eqb_refl in Hk.
  rewrite filter_app in Hk. cbn [filter] in Hk.
  rewrite <- Hab, Nat.eqb_refl in Hk.
  symmetry in Hk.
  apply filter_split in Hk as (m1 & m' & HJ & _ & Hm').
  apply filter_split in Hm' as (m2 & m3 & -> & _ & _).
  now exists m1, m2, m3.
Qed.

(** C3.  With the type filter "parttime" the matcher includes a job only
    if the job's type, lowercased and with all its hyphens removed,
    equals "parttime", and the same holds for every filter value the
    selector offers other than "all", and for every filter value
    without a hyphen.  The normalisation is applied:
    a job of the catalog that shares a tag and whose type has at most
    one hyphen is included whenever its type, lowercased and without
    hyphens, equals the filter; so "Part-Time" is matched by "parttime",
    "One-Time" by "onetime" and "Permanent" by "permanent". *)
Theorem C3_type_filter_normalization :
  forall (J : list Job.t) (S : list string),
    (forall job,
        In job (Page.findMatchedJobs J S "parttime") ->
        strip_hyphens (lowercased (Job.type job)) = "parttime")
    /\ (forall f job,
          In f Page.filterValues -> f <> "all" ->
          In job (Page.findMatchedJobs J S f) ->
          strip_hyphens (lowercased (Job.type job)) = f)
    /\ (forall f job,
          hyphen_free f -> f <> "all" ->
          In job (Page.findMatchedJobs J S f) ->
          strip_hyphens (lowercased (Job.type job)) = f)
    /\ (forall f job,
          In job J -> sharesTag job S ->
          (hyphens (Job.type job) <= 1)%nat ->
          strip_hyphens (lowercased (Job.type job)) = f ->
          In job (Page.findMatchedJobs J S f))
    /\ (forall job,
          In job J -> sharesTag job S ->
          (Job.type job = "Part-Time" ->
           In job (Page.findMatchedJobs J S "parttime"))
          /\ (Job.type job = "One-Time" ->
              In job (Page.findMatchedJobs J S "onetime"))
          /\ (Job.type job = "Permanent" ->
              In job (Page.findMatchedJobs J S "permanent"))).
Proof.
  intros J S.
  assert (G0 : forall f job,
             hyphen_free f -> f <> "all" ->
             In job (Page.findMatchedJobs J S f) ->
             strip_hyphens (lowercased (Job.type job)) = f).
  { intros f job Hf Hall H.
    apply findMatchedJobs_In in H as (_ & _ & H).
    apply matchesFilter_spec in H as [H|H]; [contradiction|].
    rewrite lowercased_toLowerCase.
    now apply normalizedType_hyphen_free. }
  assert (G : forall f job,
             In f Page.filterValues -> f <> "all" ->
             In job (Page.findMatchedJobs J S f) ->
             strip_hyphens (lowercased (Job.type job)) = f).
  { intros f job Hin. apply G0. simpl in Hin.
    destruct Hin as [<-|[<-|[<-|[<-|[]]]]]; reflexivity. }
  assert (C : forall f job,
             In job J -> sharesTag job S ->
             (hyphens (Job.type job) <= 1)%nat ->
             strip_hyphens (lowercased (Job.type job)) = f ->
             In job (Page.findMatchedJobs J S f)).
  { intros f job HJ HS Hh Hf.
    apply findMatchedJobs_In. split; [exact HJ|].
    split; [now apply hasMatchingSkill_sharesTag|].
    apply matchesFilter_spec. right.
    rewrite normalizedType_words.
    rewrite first_hyphen_is_all by now rewrite hyphens_lowercased.
    exact Hf. }
  split; [|split; [exact G | split; [exact G0 | split; [exact C|]]]].
  - intros job H. apply (G "parttime"); trivial.
    + simpl. tauto.
    + discriminate.
  - intros job HJ HS.
    repeat split; intros Ht; apply C; trivial; rewrite Ht;
      (cbn; lia) || reflexivity.
Qed.

(** C4.  For every catalog [J] and type filter [f], the matcher returns
    the empty sequence when the user's skill set is empty. *)
Theorem C4_match_empty_skills :
  forall (J : list Job.t) (f : string), Page.findMatchedJobs J [] f = [].
Proof. reflexivity. Qed.

(* ================================================================== *)
(** * Facts about objects used as maps *)
(* ================================================================== *)

Section ObjFacts.

Context {V : Type}.
Implicit Types (o : Obj.t V) (k : string) (v : V).

Lemma get_set_same o k v : Obj.get (Obj.set o k v) k = Some v.
Proof.
  induction o as [|[k' v'] r IH]; simpl.
  - now rewrite String.eqb_refl.
  - destruct (k' =? k) eqn:E; simpl; rewrite E; [reflexivity | exact IH].
Qed.

Lemma get_set_other o k k' v :
  k <> k' -> Obj.get (Obj.set o k v) k' = Obj.get o k'.
Proof.
  intros Hk. induction o as [|[k0 v0] r IH]; simpl.
  - destruct (k =? k') eqn:E; [apply String.eqb_eq in E; contradiction | reflexivity].
  - destruct (k0 =? k) eqn:E; simpl.
    + apply String.eqb_eq in E. subst k0.
      now destruct (k =? k') eqn:E'; [apply String.eqb_eq in E'|].
    + now rewrite IH.
Qed.


Lemma keys_set o k v :
  Obj.names (Obj.set o k v) =
  if Js.includes (Obj.names o) k then Obj.names o else (Obj.names o ++ [k])%list.
Proof.
  unfold Js.includes.
  induction o as [|[k' v'] r IH]; simpl; [reflexivity|].
  rewrite (String.eqb_sym k k').
  destruct (k' =? k) eqn:E; simpl; [reflexivity|].
  rewrite IH. now destruct (existsb (String.eqb k) (Obj.names r)).
Qed.


(** A loop of assignments [o[key a] = val o a] creates the keys in
    first-seen order, after the keys the object already had. *)
Lemma keys_fold {A} (key : A -> string) (val : Obj.t V -> A -> V) :
  forall (l : list A) o,
    Obj.names (fold_left (fun o a => Obj.set o (key a) (val o a)) l o) =
    (Obj.names o ++
     filter (fun y => negb (Js.includes (Obj.names o) y))
            (first_seen (map key l)))%list.
Proof.
  induction l as [|a l IH]; intros o; cbn [fold_left map first_seen filter].
  - now rewrite app_nil_r.
  - rewrite IH, keys_set.
    destruct (Js.includes (Obj.names o) (key a)) eqn:E; cbn [negb].
    + f_equal. rewrite filter_twice. apply filter_ext. intros y.
      destruct (y =? key a) eqn:Ey; cbn [negb].
      * apply String.eqb_eq in Ey. subst y. now rewrite E.
      * now rewrite andb_true_r.
    + rewrite <- app_assoc. cbn [app]. do 2 f_equal.
      rewrite filter_twice. apply filter_ext. intros y.
      unfold Js.includes. rewrite existsb_app. cbn [existsb].
      now rewrite orb_false_r, negb_orb.
Qed.

End ObjFacts.

Lemma first_seen_In l x : In x (first_seen l) <-> In x l.
Proof.
  induction l as [|y r IH]; simpl; [tauto|].
  rewrite filter_In, IH, negb_true_iff, String.eqb_neq.
  destruct (string_dec y x); [subst|]; intuition congruence.
Qed.

(** On a list without repetitions first-seen order is the list's order. *)
Lemma first_seen_NoDup l : NoDup l -> first_seen l = l.
Proof.
  induction 1 as [|x l Hx Hl IH]; simpl; [reflexivity|].
  rewrite IH. f_equal.
  rewrite (filter_ext_in _ (fun _ => true)); [apply filter_true|].
  intros y Hy. apply negb_true_iff, String.eqb_neq. congruence.
Qed.

Lemma filter_NoDup {A} (f : A -> bool) l : NoDup l -> NoDup (filter f l).
Proof.
  induction 1 as [|x l Hx Hl IH]; simpl; [constructor|].
  destruct (f x); [|exact IH].
  constructor; [|exact IH]. intros H. apply filter_In in H. tauto.
Qed.

Lemma first_seen_NoDup_out l : NoDup (first_seen l).
Proof.
  induction l as [|x r IH]; cbn [first_seen]; constructor.
  - intros H. apply filter_In in H as (_ & H).
    now rewrite String.eqb_refl in H.
  - now apply filter_NoDup.
Qed.

Lemma In_get {V} (o : Obj.t V) k v :
  NoDup (Obj.names o) -> In (k, v) o -> Obj.get o k = Some v.
Proof.
  induction o as [|[k' v'] r IH]; cbn; [intros _ []|].
  intros Hnd [E|H].
  - injection E as -> ->. now rewrite String.eqb_refl.
  - inversion Hnd as [|? ? Hk Hr]; subst.
    destruct (k' =? k) eqn:E.
    + apply String.eqb_eq in E. subst k'. elim Hk.
      unfold Obj.names. apply in_map_iff. now exists (k, v).
    + now apply IH.
Qed.



Lemma first_seen_filter (p : string -> bool) l :
  filter p (first_seen l) = first_seen (filter p l).
Proof.
  induction l as [|x r IH]; [reflexivity|].
  cbn [first_seen filter]. destruct (p x) eqn:Px.
  - cbn [first_seen]. f_equal. rewrite <- IH, !filter_twice.
    apply filter_ext. intros y. apply andb_comm.
  - rewrite <- IH, filter_twice. apply filter_ext. intros y.
    destruct (y =? x) eqn:E; cbn [negb].
    + apply String.eqb_eq in E. subst y. now rewrite Px.
    + apply andb_true_r.
Qed.

Lemma map_filter_key {A B} (key : A -> B) (p : B -> bool) (l : list A) :
  map key (filter (fun a => p (key a)) l) = filter p (map key l).
Proof.
  induction l as [|a l IH]; [reflexivity|].
  cbn [filter map]. destruct (p (key a)); cbn [map]; now rewrite IH.
Qed.

Lemma filter_partition_perm {A} (p : A -> bool) l :
  Permutation (filter p l ++ filter (fun x => negb (p x)) l) l.
Proof.
  induction l as [|a l IH]; cbn; [constructor|].
  destruct (p a); cbn.
  - now constructor.
  - apply Permutation_sym, Permutation_cons_app, Permutation_sym, IH.
Qed.

Lemma StronglySorted_map_impl {A B} (R : A -> A -> Prop) (R' : B -> B -> Prop)
  (f : A -> B) l :
  (forall a b, R a b -> R' (f a) (f b)) ->
  StronglySorted R l -> StronglySorted R' (map f l).
Proof.
  intros H. induction 1 as [|x l Hl IH Hx]; cbn; constructor; [exact IH|].
  apply Forall_map. eapply Forall_impl; [|exact Hx]. intros b. apply H.
Qed.

Lemma isIndex_settable k : JsObject.isIndex k = true -> settable k = true.
Proof.
  unfold settable. destruct (k =? "__proto__") eqn:E; [|reflexivity].
  apply String.eqb_eq in E. subst k. discriminate.
Qed.

(* ================================================================== *)
(** * Facts about plain objects *)
(* ================================================================== *)

Section JsObjectFacts.

Context {V : Type}.
Implicit Types (o : JsObject.t V) (k : string).

(** A loop of assignments creates what the same loop creates in a table
    when the names [__proto__] are left out. *)
Lemma fold_set_settable {A} (key : A -> string)
  (val : JsObject.t V -> A -> V) (l : list A) :
  forall o,
    fold_left (fun o a => JsObject.set o (key a) (val o a)) l o =
    fold_left (fun o a => Obj.set o (key a) (val o a))
              (filter (fun a => settable (key a)) l) o.
Proof.
  induction l as [|a l IH]; intros o; [reflexivity|].
  cbn [fold_left filter]. rewrite IH.
  unfold JsObject.set, settable.
  destruct (key a =? "__proto__"); reflexivity.
Qed.

Lemma names_fold_js {A} (key : A -> string)
  (val : JsObject.t V -> A -> V) (l : list A) :
  Obj.names (fold_left (fun o a => JsObject.set o (key a) (val o a))
                       l JsObject.empty) =
  first_seen (filter settable (map key l)).
Proof.
  rewrite fold_set_settable, keys_fold.
  cbn [Obj.names JsObject.empty map app].
  rewrite (map_filter_key key settable). apply filter_true.
Qed.

Lemma ownProperties_perm o : Permutation (JsObject.ownProperties o) o.
Proof.
  unfold JsObject.ownProperties.
  eapply perm_trans; [apply Permutation_app_tail, sort_perm|].
  apply (filter_partition_perm (fun kv => JsObject.isIndex (fst kv))).
Qed.


Lemma keys_In o k : In k (JsObject.keys o) <-> In k (Obj.names o).
Proof.
  unfold JsObject.keys, Obj.names.
  split; apply Permutation_in; apply Permutation_map;
    [|apply Permutation_sym]; apply ownProperties_perm.
Qed.

Lemma keys_NoDup o : NoDup (Obj.names o) -> NoDup (JsObject.keys o).
Proof.
  apply Permutation_NoDup, Permutation_map, Permutation_sym,
    ownProperties_perm.
Qed.

Lemma keys_values_length o :
  List.length (JsObject.keys o) = List.length (JsObject.values o).
Proof. unfold JsObject.keys, JsObject.values. now rewrite !length_map. Qed.


(** The order in which the names of a filled object are listed. *)
Lemma keys_keyOrder o names :
  Obj.names o = first_seen (filter settable names) ->
  keyOrder names (JsObject.keys o).
Proof.
  intros Hn.
  set (indexed := filter (fun kv : string * V => JsObject.isIndex (fst kv)) o).
  assert (Hidx : map fst indexed = filter JsObject.isIndex (Obj.names o))
    by apply (map_filter_key fst JsObject.isIndex).
  exists (map fst (Js.sort (fun a b => (JsObject.indexOf (fst a)
                                        - JsObject.indexOf (fst b))%Z) indexed)).
  split; [|split; [|split]].
  - unfold JsObject.keys, JsObject.ownProperties. rewrite map_app.
    fold indexed. f_equal.
    rewrite (map_filter_key fst (fun k => negb (JsObject.isIndex k))).
    fold (Obj.names o). rewrite Hn, first_seen_filter, filter_twice.
    reflexivity.
  - rewrite (sort_ext _ (fun a b : string * V =>
                           (- JsObject.indexOf (fst b)
                            - - JsObject.indexOf (fst a))%Z))
      by (intros; lia).
    eapply StronglySorted_map_impl;
      [|apply (sort_sorted (fun a : string * V => (- JsObject.indexOf (fst a))%Z))].
    cbn beta. intros a b H. lia.
  - eapply Permutation_NoDup;
      [apply Permutation_sym, Permutation_map, sort_perm|].
    rewrite Hidx. apply filter_NoDup.
    rewrite Hn. apply first_seen_NoDup_out.
  - intros k.
    assert (E : In k (map fst (Js.sort
                  (fun a b => (JsObject.indexOf (fst a)
                               - JsObject.indexOf (fst b))%Z) indexed))
                <-> In k (map fst indexed)).
    { split; apply Permutation_in; apply Permutation_map;
        [|apply Permutation_sym]; apply sort_perm. }
    rewrite E, Hidx, filter_In, Hn, first_seen_In, filter_In.
    pose proof (isIndex_settable k). tauto.
Qed.

(** Without array indices among the names, that is first-seen order. *)
Lemma keys_plain o names :
  Obj.names o = first_seen (filter settable names) ->
  (forall k, In k names -> plainName k = true) ->
  JsObject.keys o = first_seen names.
Proof.
  intros Hn Hplain.
  assert (Hall : filter settable names = names).
  { rewrite (filter_ext_in settable (fun _ => true)); [apply filter_true|].
    intros k Hk. apply Hplain in Hk. unfold plainName in Hk.
    apply andb_true_iff in Hk as [_ Hk]. exact Hk. }
  rewrite Hall in Hn.
  unfold JsObject.keys, JsObject.ownProperties.
  rewrite (filter_none (fun kv => JsObject.isIndex (fst kv))).
  - cbn [Js.sort fold_right app].
    rewrite (filter_ext_in _ (fun _ => true)); [now rewrite filter_true|].
    intros [k v] Hkv. cbn [fst].
    assert (Hk : In k names).
    { apply first_seen_In. rewrite <- Hn. unfold Obj.names.
      apply in_map_iff. now exists (k, v). }
    apply Hplain in Hk. unfold plainName in Hk.
    apply andb_true_iff in Hk as [Hk _]. exact Hk.
  - intros [k v] Hkv. cbn [fst].
    assert (Hk : In k names).
    { apply first_seen_In. rewrite <- Hn. unfold Obj.names.
      apply in_map_iff. now exists (k, v). }
    apply Hplain in Hk. unfold plainName in Hk.
    apply andb_true_iff in Hk as [Hk _]. now apply negb_true_iff in Hk.
Qed.

End JsObjectFacts.

(* ================================================================== *)
(** * The dashboard aggregator: claims C7 - C9 *)
(* ================================================================== *)

Lemma hasSkill_holds name user :
  Page.hasSkill name user = true <-> holds name user.
Proof.
  unfold Page.hasSkill, holds.
  destruct (User.skills user) as [l|].
  - rewrite includes_In. split.
    + intros H. now exists l.
    + intros (l' & E & H). now inversion E; subst.
  - split; [discriminate | intros (l' & E & _); discriminate].
Qed.

Lemma usersWith_holders users name :
  Page.usersWith users name = Z.of_nat (holders name users).
Proof.
  unfold Page.usersWith. f_equal.
  induction users as [|u r IH]; [reflexivity|].
  cbn [filter holders].
  destruct (holds_dec name u) as [H|H].
  - apply hasSkill_holds in H. rewrite H. simpl. now rewrite IH.
  - destruct (Page.hasSkill name u) eqn:E.
    + apply hasSkill_holds in E. contradiction.
    + exact IH.
Qed.


Lemma holders_perm name users users' :
  Permutation users users' -> holders name users = holders name users'.
Proof.
  induction 1; cbn [holders]; lia.
Qed.

Lemma skillCounts_snoc skills skill users :
  Page.skillCounts (skills ++ [skill]) users =
  JsObject.set (Page.skillCounts skills users) (Skill.name skill)
               (Page.usersWith users (Skill.name skill)).
Proof. unfold Page.skillCounts. now rewrite fold_left_app. Qed.

Lemma skillCounts_names skills users :
  Obj.names (Page.skillCounts skills users) =
  first_seen (filter settable (map Skill.name skills)).
Proof.
  unfold Page.skillCounts.
  apply (names_fold_js Skill.name
           (fun _ s => Page.usersWith users (Skill.name s))).
Qed.

Lemma skillCounts_NoDup skills users :
  NoDup (Obj.names (Page.skillCounts skills users)).
Proof. rewrite skillCounts_names. apply first_seen_NoDup_out. Qed.

Lemma skillCounts_get skills users name :
  In name (map Skill.name skills) -> name <> "__proto__" ->
  Obj.get (Page.skillCounts skills users) name = Some (Page.usersWith users name).
Proof.
  intros Hin Hp. revert Hin.
  induction skills as [|s l IH] using rev_ind; [intros []|].
  rewrite map_app, in_app_iff, skillCounts_snoc. cbn [map In].
  unfold JsObject.set.
  destruct (Skill.name s =? "__proto__") eqn:Ep.
  - apply String.eqb_eq in Ep.
    intros [H|[H|[]]]; [now apply IH | congruence].
  - destruct (string_dec (Skill.name s) name) as [<-|Hn].
    + intros _. apply get_set_same.
    + intros [H|[H|[]]]; [|contradiction].
      rewrite get_set_other by exact Hn. now apply IH.
Qed.


Lemma skillCounts_perm skills users users' :
  Permutation users users' ->
  Page.skillCounts skills users = Page.skillCounts skills users'.
Proof.
  intros Hu. unfold Page.skillCounts.
  assert (E : forall name,
             Page.usersWith users name = Page.usersWith users' name).
  { intros name. rewrite !usersWith_holders. f_equal.
    now apply holders_perm. }
  generalize (@JsObject.empty Z).
  induction skills as [|s l IH]; intros o; [reflexivity|].
  cbn [fold_left]. rewrite E. apply IH.
Qed.

Lemma categoryCounts_snoc prototype jobs job :
  Page.categoryCounts prototype (jobs ++ [job]) =
  JsObject.set (Page.categoryCounts prototype jobs) (Job.category job)
    (Page.orZeroPlusOne
       (Page.read prototype (Page.categoryCounts prototype jobs)
                  (Job.category job))).
Proof. unfold Page.categoryCounts. now rewrite fold_left_app. Qed.

Lemma categoryCounts_names prototype jobs :
  Obj.names (Page.categoryCounts prototype jobs) =
  first_seen (filter settable (map Job.category jobs)).
Proof.
  unfold Page.categoryCounts.
  apply (names_fold_js Job.category
           (fun o j => Page.orZeroPlusOne
                         (Page.read prototype o (Job.category j)))).
Qed.

Lemma categoryCounts_NoDup prototype jobs :
  NoDup (Obj.names (Page.categoryCounts prototype jobs)).
Proof. rewrite categoryCounts_names. apply first_seen_NoDup_out. Qed.

Lemma jobsOf_snoc c jobs job :
  jobsOf c (jobs ++ [job]) =
  jobsOf c jobs + (if string_dec (Job.category job) c then 1 else 0).
Proof.
  unfold jobsOf. rewrite map_app, count_occ_app. cbn [map count_occ].
  now destruct (string_dec (Job.category job) c).
Qed.

Lemma jobsOf_pos c jobs :
  jobsOf c jobs <> 0 <-> exists job, In job jobs /\ Job.category job = c.
Proof.
  unfold jobsOf.
  assert (E : In c (map Job.category jobs) <->
              exists job, In job jobs /\ Job.category job = c).
  { rewrite in_map_iff. split; intros (j & H1 & H2); exists j; tauto. }
  rewrite <- E, (count_occ_In string_dec). lia.
Qed.

Lemma ones_snoc n : ones n ++ "1" = ones (S n).
Proof.
  induction n as [|n IH]; [reflexivity|].
  cbn [ones append] in *. now rewrite IH.
Qed.

Lemma append_assoc3 (a b c : string) : (a ++ b) ++ c = a ++ (b ++ c).
Proof. induction a as [|x a IH]; cbn; [reflexivity | now rewrite IH]. Qed.

Lemma append_nonempty (a : string) x b : (a ++ String x b =? "") = false.
Proof. destruct a; reflexivity. Qed.

(** What [categoryCounts] holds for a name after the loop. *)
Lemma categoryCounts_get prototype jobs c :
  Obj.get (Page.categoryCounts prototype jobs) c =
  expectedCount prototype c (jobsOf c jobs).
Proof.
  induction jobs as [|j l IH] using rev_ind.
  - unfold expectedCount. cbn. now destruct (c =? "__proto__").
  - rewrite categoryCounts_snoc, jobsOf_snoc. unfold JsObject.set.
    destruct (Job.category j =? "__proto__") eqn:Ep.
    + rewrite IH. destruct (string_dec (Job.category j) c) as [E|E].
      * rewrite <- E. unfold expectedCount. now rewrite Ep.
      * now rewrite Nat.add_0_r.
    + destruct (string_dec (Job.category j) c) as [E|E].
      * subst c. rewrite get_set_same.
        unfold Page.read, JsObject.getOwn. rewrite IH.
        unfold expectedCount. rewrite Ep.
        replace (jobsOf (Job.category j) l + 1)
          with (S (jobsOf (Job.category j) l)) by lia.
        destruct (jobsOf (Job.category j) l) as [|m];
          destruct (prototype (Job.category j)) as [text|];
          cbn [Page.orZeroPlusOne]; try reflexivity.
        -- change (ones (S m)) with (String "1" (ones m)).
           rewrite append_nonempty, append_assoc3.
           change (String "1" (ones m)) with (ones (S m)).
           now rewrite ones_snoc.
        -- replace (Z.of_nat (S m) =? 0)%Z with false
             by (symmetry; apply Z.eqb_neq; lia).
           do 2 f_equal. lia.
      * rewrite get_set_other by exact E. now rewrite IH, Nat.add_0_r.
Qed.





(** C9, as the code has it.  Both aggregations are functions of their
    inputs that do not depend on the order of the collection they count
    over: permuting the user records leaves [skillFrequency] unchanged,
    permuting the jobs leaves what [jobDemand] holds under every
    category unchanged.  The keys come in the order [keyOrder]: names
    that are array indices first, in ascending numeric order, then the
    other names in first-seen order ([__proto__] left out).  For a
    catalog without such names the keys of [skillFrequency] come in the
    catalog's first-seen order (the catalog's order, when it repeats no
    name) and those of [jobDemand] in first-seen order. *)
Theorem C9_aggregations_order_insensitive :
  forall (prototype : string -> option string)
         (skills : list Skill.t) (users users' : list User.t)
         (jobs jobs' : list Job.t),
    Permutation users users' ->
    Permutation jobs jobs' ->
    Page.getSkillFrequencyData skills users =
    Page.getSkillFrequencyData skills users'
    /\ (forall c,
          Obj.get (Page.categoryCounts prototype jobs) c =
          Obj.get (Page.categoryCounts prototype jobs') c)
    /\ keyOrder (map Skill.name skills)
                (Page.labels (Page.getSkillFrequencyData skills users))
    /\ keyOrder (map Job.category jobs)
                (Page.labels (Page.getJobDemandData prototype jobs))
    /\ ((forall skill, In skill skills -> plainName (Skill.name skill) = true) ->
        Page.labels (Page.getSkillFrequencyData skills users) =
        first_seen (map Skill.name skills)
        /\ (NoDup (map Skill.name skills) ->
            Page.labels (Page.getSkillFrequencyData skills users) =
            map Skill.name skills))
    /\ ((forall job, In job jobs -> plainName (Job.category job) = true) ->
        Page.labels (Page.getJobDemandData prototype jobs) =
        first_seen (map Job.category jobs)).
Proof.
  intros prototype skills users users' jobs jobs' Hu Hj.
  split; [|split; [|split; [|split; [|split]]]].
  - unfold Page.getSkillFrequencyData.
    now rewrite (skillCounts_perm skills users users' Hu).
  - intros c. rewrite !categoryCounts_get.
    assert (E : jobsOf c jobs = jobsOf c jobs').
    { unfold jobsOf. apply Permutation_count_occ. now apply Permutation_map. }
    now rewrite E.
  - apply keys_keyOrder, skillCounts_names.
  - apply keys_keyOrder, categoryCounts_names.
  - intros Hplain.
    assert (E : Page.labels (Page.getSkillFrequencyData skills users) =
                first_seen (map Skill.name skills)).
    { apply keys_plain; [apply skillCounts_names|].
      intros k Hk. apply in_map_iff in Hk as (s & <- & Hs). now apply Hplain. }
    split; [exact E|]. intros Hnd. rewrite E. now apply first_seen_NoDup.
  - intros Hplain. apply keys_plain; [apply categoryCounts_names|].
    intros k Hk. apply in_map_iff in Hk as (j & <- & Hjb). now apply Hplain.
Qed.

(** C9 at the spec's example: two user records swapped, three jobs
    rotated. *)
Lemma C9_aggregations_order_insensitive_witness :
  Page.getSkillFrequencyData exampleSkills exampleUsers =
  Page.getSkillFrequencyData exampleSkills (rev exampleUsers)
  /\ (forall c,
        Obj.get (Page.categoryCounts JsObject.prototype [jobA; jobB; jobA]) c =
        Obj.get (Page.categoryCounts JsObject.prototype [jobB; jobA; jobA]) c)
  /\ keyOrder (map Skill.name exampleSkills)
       (Page.labels (Page.getSkillFrequencyData exampleSkills exampleUsers))
  /\ keyOrder (map Job.category [jobA; jobB; jobA])
       (Page.labels (Page.getJobDemandData JsObject.prototype [jobA; jobB; jobA]))
  /\ ((forall skill,
          In skill exampleSkills -> plainName (Skill.name skill) = true) ->
      Page.labels (Page.getSkillFrequencyData exampleSkills exampleUsers) =
      first_seen (map Skill.name exampleSkills)
      /\ (NoDup (map Skill.name exampleSkills) ->
          Page.labels (Page.getSkillFrequencyData exampleSkills exampleUsers) =
          map Skill.name exampleSkills))
  /\ ((forall job,
          In job [jobA; jobB; jobA] -> plainName (Job.category job) = true) ->
      Page.labels (Page.getJobDemandData JsObject.prototype [jobA; jobB; jobA]) =
      first_seen (map Job.category [jobA; jobB; jobA])).
Proof.
  apply (C9_aggregations_order_insensitive JsObject.prototype
           exampleSkills exampleUsers (rev exampleUsers)
           [jobA; jobB; jobA] [jobB; jobA; jobA]).
  - apply Permutation_rev.
  - apply perm_swap.
Defined.

(** C9's key order does not hold of every catalog: of the skills "b",
    "10", "2" (in this order) the chart lists "2" and "10" first. *)
Lemma C9_index_names_come_first :
  let labels := Page.labels (Page.getSkillFrequencyData indexSkills []) in
  NoDup (map Skill.name indexSkills)
  /\ labels = ["2"; "10"; "b"]
  /\ labels <> map Skill.name indexSkills.
Proof.
  cbn. split; [|split; [reflexivity | discriminate]].
  repeat constructor; cbn; intuition discriminate.
Qed.

(* ================================================================== *)
(** * The API route: claims C5, C6, C10 *)
(* ================================================================== *)

Lemma connect_ok env st :
  connected env st -> Api.connectToMongo env st = (Api.Return true, opened st).
Proof.
  unfold connected, Api.connectToMongo, opened.
  destruct st as [c d us sc n]; cbn.
  destruct c; intros H; rewrite H; reflexivity.
Qed.

Lemma connect_fail env st e :
  Api.client st = false -> Api.connect_fails env = Some e ->
  exists st', Api.connectToMongo env st = (Api.Throw e, st').
Proof.
  unfold Api.connectToMongo. intros -> ->. eauto.
Qed.

(** Unfold the handler of a request whose route and method are known
    and whose connection is there, down to the route's own branch. *)
Ltac enter_route Hroute Hmethod Hconn :=
  unfold Api.handleRoute;
  change ("/" ++ String.concat "/" (Api.path ?r)) with (route_of r);
  rewrite Hroute, Hmethod;
  unfold Api.try_catch at 1, Api.bind at 1;
  rewrite (connect_ok _ _ Hconn);
  cbn [String.eqb Ascii.eqb Bool.eqb andb].

Lemma auth_ok env st user :
  Api.getUser env = Some user ->
  Api.getAuthenticatedUser env st = (Api.Return user, st).
Proof.
  intros H. unfold Api.getAuthenticatedUser, Api.bind, Api.ask.
  now rewrite H.
Qed.

Lemma collection_ok {A} (op : Api.State -> A * Api.State) env st :
  Api.db_fails env = None ->
  Api.collection true op env st = (Api.Return (fst (op st)), snd (op st)).
Proof.
  intros H. unfold Api.collection. rewrite H. now destruct (op st).
Qed.

Lemma collection_down {A} (op : Api.State -> A * Api.State) env st e :
  Api.db_fails env = Some e ->
  Api.collection true op env st = (Api.Throw e, st).
Proof. intros H. unfold Api.collection. now rewrite H. Qed.

(** C10.  An authenticated GET /user/skills by a user with no stored
    record, or whose stored record has no skills field, is answered with
    status 200 and the body [{skills: []}] (the database being
    reachable). *)
Theorem C10_get_skills_default :
  forall (request : Api.Request) (env : Api.Env) (st : Api.State)
         (user : Api.AuthUser.t),
    route_of request = "/user/skills" ->
    Api.method request = "GET" ->
    connected env st ->
    Api.db_fails env = None ->
    Api.getUser env = Some user ->
    (Api.findOne (Api.AuthUser.id user) (Api.user_skills st) = None
     \/ exists doc,
          Api.findOne (Api.AuthUser.id user) (Api.user_skills st) = Some doc
          /\ Obj.get doc "skills" = None) ->
    exists response,
      Api.handleRoute request env st = (Api.Return response, opened st)
      /\ Api.status response = 200%Z
      /\ Api.json response = Some (Api.VObj [("skills", Api.VArr [])]).
Proof.
  intros request env st user Hroute Hmethod Hconn Hdb Huser Hrecord.
  enter_route Hroute Hmethod Hconn.
  unfold Api.try_catch, Api.bind.
  rewrite (auth_ok _ _ _ Huser), (collection_ok _ _ _ Hdb).
  cbn [fst snd opened Api.user_skills].
  eexists. split; [reflexivity|].
  split; [reflexivity|].
  destruct Hrecord as [-> | (doc & -> & Hdoc)].
  - reflexivity.
  - unfold Api.field. now rewrite Hdoc.
Qed.

(** C10 for a signed-in user without a record, on a first request. *)
Lemma C10_get_skills_default_witness :
  exists response,
    Api.handleRoute GET_skills env_bob st0 = (Api.Return response, opened st0)
    /\ Api.status response = 200%Z
    /\ Api.json response = Some (Api.VObj [("skills", Api.VArr [])]).
Proof.
  apply (C10_get_skills_default GET_skills env_bob st0 bob);
    try reflexivity.
  left. reflexivity.
Defined.

(* ------------------------------------------------------------------ *)
(** ** The store under [replaceOne] with upsert *)

Lemma hasUserId_other id id' (d : Api.Doc) :
  Api.hasUserId id d = true -> id' <> id -> Api.hasUserId id' d = false.
Proof.
  unfold Api.hasUserId.
  destruct (Obj.get d "userId") as [[]|]; try discriminate.
  intros E Hne. apply String.eqb_eq in E. subst.
  now apply String.eqb_neq.
Qed.

Lemma hasUserId_skillsRecord user skills t oid :
  Api.hasUserId (Api.AuthUser.id user)
                (("_id", oid) :: skillsRecord user skills t) = true.
Proof. unfold Api.hasUserId. cbn. apply String.eqb_refl. Qed.

Lemma replaceFirst_found id doc :
  (forall oid, Api.hasUserId id (("_id", oid) :: doc) = true) ->
  forall docs docs',
    Api.replaceFirst id doc docs = Some docs' ->
    (exists oid, Api.findOne id docs' = Some (("_id", oid) :: doc))
    /\ (forall other, other <> id -> Api.findOne other docs' = Api.findOne other docs).
Proof.
  intros Hdoc. unfold Api.findOne.
  induction docs as [|d r IH]; intros docs' H; cbn in H; [discriminate|].
  destruct (Api.hasUserId id d) eqn:Ed.
  - injection H as <-. split.
    + eexists. cbn [find]. now rewrite Hdoc.
    + intros other Hne. cbn [find].
      rewrite (hasUserId_other _ _ _ (Hdoc (Api.field d "_id")) Hne).
      now rewrite (hasUserId_other _ _ _ Ed Hne).
  - destruct (Api.replaceFirst id doc r) as [r'|] eqn:Er; [|discriminate].
    injection H as <-.
    destruct (IH _ eq_refl) as ((oid & Hfound) & Hother).
    split.
    + exists oid. cbn [find]. now rewrite Ed.
    + intros other Hne. cbn [find]. now rewrite (Hother other Hne).
Qed.

Lemma replaceFirst_absent id doc docs :
  Api.replaceFirst id doc docs = None -> Api.findOne id docs = None.
Proof.
  unfold Api.findOne.
  induction docs as [|d r IH]; cbn; [reflexivity|].
  destruct (Api.hasUserId id d); [discriminate|].
  destruct (Api.replaceFirst id doc r); [discriminate | exact IH].
Qed.

Lemma findOne_snoc id docs (d : Api.Doc) :
  Api.findOne id (docs ++ [d]) =
  match Api.findOne id docs with
  | Some x => Some x
  | None => if Api.hasUserId id d then Some d else None
  end.
Proof.
  unfold Api.findOne.
  induction docs as [|x r IH]; cbn; [reflexivity|].
  now destruct (Api.hasUserId id x).
Qed.

(** After the upsert the user's record is the new document, whatever was
    stored before, and every other user's record is as it was. *)
Lemma replaceOne_upsert_spec user skills t st :
  let st' := snd (Api.replaceOne_upsert (Api.AuthUser.id user)
                                        (skillsRecord user skills t) st) in
  (exists oid,
      Api.findOne (Api.AuthUser.id user) (Api.user_skills st') =
      Some (("_id", oid) :: skillsRecord user skills t))
  /\ (forall other,
        other <> Api.AuthUser.id user ->
        Api.findOne other (Api.user_skills st') =
        Api.findOne other (Api.user_skills st))
  /\ Api.status_checks st' = Api.status_checks st.
Proof.
  unfold Api.replaceOne_upsert.
  destruct (Api.replaceFirst _ _ (Api.user_skills st)) as [docs|] eqn:E;
    cbn [snd Api.user_skills Api.status_checks].
  - destruct (replaceFirst_found _ _ (hasUserId_skillsRecord user skills t)
                                 _ _ E) as (Hfound & Hother).
    auto.
  - apply replaceFirst_absent in E. split; [|split; [|reflexivity]].
    + exists (Api.VObjectId (Api.next_oid st)).
      now rewrite findOne_snoc, E, hasUserId_skillsRecord.
    + intros other Hne. rewrite findOne_snoc.
      rewrite (hasUserId_other _ _ _
                 (hasUserId_skillsRecord user skills t _) Hne).
      now destruct (Api.findOne other (Api.user_skills st)).
Qed.

(** What an authenticated POST /user/skills does, by its body. *)
Lemma post_skills_answer request env st user :
  route_of request = "/user/skills" ->
  Api.method request = "POST" ->
  connected env st ->
  Api.getUser env = Some user ->
  Api.handleRoute request env st =
  match Api.body request with
  | Api.Throw e => (Api.Return (Api.reply_status (Api.err e) 401), opened st)
  | Api.Return Api.VNull =>
      (Api.Return
         (Api.reply_status (Api.err (Api.TypeError "null" "skills")) 401),
       opened st)
  | Api.Return Api.VUndefined =>
      (Api.Return
         (Api.reply_status (Api.err (Api.TypeError "undefined" "skills")) 401),
       opened st)
  | Api.Return b =>
      match skillsArray b with
      | None =>
          (Api.Return
             (Api.reply_status (Api.err "Skills array is required") 400),
           opened st)
      | Some items =>
          match Api.db_fails env with
          | Some e =>
              (Api.Return (Api.reply_status (Api.err e) 401), opened st)
          | None =>
              (Api.Return
                 (Api.reply
                    (Api.VObj [("message", Api.VStr "Skills updated successfully");
                               ("skills", Api.VArr items)])),
               snd (Api.replaceOne_upsert
                      (Api.AuthUser.id user)
                      (skillsRecord user (Api.VArr items) (Api.now env))
                      (opened st)))
          end
      end
  end.
Proof.
  intros Hroute Hmethod Hconn Huser.
  enter_route Hroute Hmethod Hconn.
  unfold Api.try_catch, Api.bind.
  rewrite (auth_ok _ _ _ Huser).
  unfold Api.request_json.
  destruct (Api.body request) as [b|e]; [|reflexivity].
  destruct b as [| |x|n|s|t|n|items|fields]; try reflexivity.
  cbn [Api.prop Api.ret skillsArray]. unfold Api.field.
  destruct (Obj.get fields "skills") as [v|]; [|reflexivity].
  destruct v as [| |x|n|s|t|n|items|fs]; try reflexivity.
  - now destruct x.
  - cbn. now destruct (n =? 0)%Z.
  - cbn. now destruct (s =? "").
  - cbn [Api.truthy Api.isArray negb orb]. unfold Api.ask, Api.collection.
    destruct (Api.db_fails env) as [e|]; [reflexivity|].
    now destruct (Api.replaceOne_upsert _ _ (opened st)).
Qed.

(** C5, as the code has it.  For an authenticated POST /user/skills with
    the database connection there:
    - the answer has status 400 exactly when the body is a JSON value
      other than null whose skills field is missing or is not an array,
      and then it is the error "Skills array is required" and nothing is
      stored;
    - a body whose skills field is an array, of whatever length, is
      answered 200 and the user's stored record is replaced as a whole
      by {userId, userEmail, skills, updatedAt} (under the [_id] the
      store gives it), the other users' records staying as they were,
      unless the store's write fails: then the answer is 401 with the
      store's message and nothing is stored;
    - a body that is null, or that cannot be read, is answered 401 with
      the error's message and nothing is stored. *)
Theorem C5_post_skills :
  forall (request : Api.Request) (env : Api.Env) (st : Api.State)
         (user : Api.AuthUser.t),
    route_of request = "/user/skills" ->
    Api.method request = "POST" ->
    connected env st ->
    Api.getUser env = Some user ->
    let answer := fst (Api.handleRoute request env st) in
    let st' := snd (Api.handleRoute request env st) in
    ((exists response,
         answer = Api.Return response /\ Api.status response = 400%Z) <->
     (exists b,
         Api.body request = Api.Return b /\ b <> Api.VNull
         /\ b <> Api.VUndefined /\ skillsArray b = None))
    /\ (forall b,
          Api.body request = Api.Return b ->
          b <> Api.VNull -> b <> Api.VUndefined ->
          skillsArray b = None ->
          answer = Api.Return
                     (Api.reply_status (Api.err "Skills array is required") 400)
          /\ st' = opened st)
    /\ (forall b items,
          Api.body request = Api.Return b ->
          skillsArray b = Some items ->
          Api.db_fails env = None ->
          answer = Api.Return
                     (Api.reply
                        (Api.VObj [("message", Api.VStr "Skills updated successfully");
                                   ("skills", Api.VArr items)]))
          /\ (exists oid,
                Api.findOne (Api.AuthUser.id user) (Api.user_skills st') =
                Some (("_id", oid) ::
                      skillsRecord user (Api.VArr items) (Api.now env)))
          /\ (forall other,
                other <> Api.AuthUser.id user ->
                Api.findOne other (Api.user_skills st') =
                Api.findOne other (Api.user_skills st)))
    /\ (forall b items e,
          Api.body request = Api.Return b ->
          skillsArray b = Some items ->
          Api.db_fails env = Some e ->
          answer = Api.Return (Api.reply_status (Api.err e) 401)
          /\ st' = opened st)
    /\ (Api.body request = Api.Return Api.VNull ->
        answer = Api.Return
                   (Api.reply_status
                      (Api.err "Cannot read properties of null (reading 'skills')")
                      401)
        /\ st' = opened st)
    /\ (forall e,
          Api.body request = Api.Throw e ->
          answer = Api.Return (Api.reply_status (Api.err e) 401)
          /\ st' = opened st).
Proof.
  intros request env st user Hroute Hmethod Hconn Huser answer st'.
  subst answer st'.
  rewrite (post_skills_answer request env st user Hroute Hmethod Hconn Huser).
  assert (Harr : forall b items,
             skillsArray b = Some items ->
             b <> Api.VNull /\ b <> Api.VUndefined).
  { intros b items H. split; intros ->; discriminate. }
  split; [|split; [|split; [|split; [|split]]]].
  - split.
    + intros (response & E & Hs).
      destruct (Api.body request) as [b|e].
      * exists b. split; [reflexivity|].
        destruct b; cbn [skillsArray] in *;
          try (injection E as <-; discriminate);
          try (repeat split; discriminate || reflexivity).
        destruct (Obj.get fields "skills") as [[]|];
          try (repeat split; discriminate || reflexivity).
        destruct (Api.db_fails env); injection E as <-; discriminate.
      * injection E as <-. discriminate.
    + intros (b & -> & Hn & Hu & Hsk).
      destruct b; try contradiction; rewrite Hsk;
        (eexists; split; reflexivity).
  - intros b -> Hn Hu Hsk.
    destruct b; try contradiction; rewrite Hsk; now split.
  - intros b items -> Hsk Hdb.
    destruct (Harr b items Hsk) as [Hn Hu].
    pose proof (replaceOne_upsert_spec user (Api.VArr items) (Api.now env)
                                       (opened st)) as (Hrec & Hother & _).
    destruct b; try contradiction; rewrite Hsk, Hdb; cbn [fst snd];
      (split; [reflexivity | split; [exact Hrec | exact Hother]]).
  - intros b items e -> Hsk Hdb.
    destruct (Harr b items Hsk) as [Hn Hu].
    destruct b; try contradiction; rewrite Hsk, Hdb; now split.
  - intros ->. now split.
  - intros e ->. now split.
Qed.

(** C5 on a direct call with four skills over a stored record of two:
    the call succeeds and the record is overwritten. *)
Lemma C5_post_skills_witness :
  let request := POST_skills (Api.VObj [("skills", fourSkills)]) in
  let answer := fst (Api.handleRoute request env_ok st0) in
  let st' := snd (Api.handleRoute request env_ok st0) in
  answer = Api.Return
             (Api.reply
                (Api.VObj [("message", Api.VStr "Skills updated successfully");
                           ("skills", fourSkills)]))
  /\ (exists oid,
        Api.findOne "u-1" (Api.user_skills st') =
        Some (("_id", oid) :: skillsRecord alice fourSkills (Api.now env_ok)))
  /\ (forall other,
        other <> "u-1" ->
        Api.findOne other (Api.user_skills st') =
        Api.findOne other (Api.user_skills st0)).
Proof.
  intros request answer st'.
  destruct (C5_post_skills request env_ok st0 alice
              eq_refl eq_refl eq_refl eq_refl) as (_ & _ & H & _).
  exact (H (Api.VObj [("skills", fourSkills)])
           [Api.VStr "Coding"; Api.VStr "Design"; Api.VStr "Writing";
            Api.VStr "Cooking"]
           eq_refl eq_refl eq_refl).
Defined.

(** C5 does not hold as the spec words it.  A null body has no skills
    field, and the answer is 401 with the message of the TypeError, not
    400; and a body with a skills array whose write the store refuses
    is answered 401 with the stored record left as it was. *)
Lemma C5_null_body_and_failed_write_are_401 :
  let null_body := POST_skills Api.VNull in
  let four := POST_skills (Api.VObj [("skills", fourSkills)]) in
  Api.getUser env_ok = Some alice
  /\ skillsArray Api.VNull = None
  /\ fst (Api.handleRoute null_body env_ok st0) =
     Api.Return
       (Api.reply_status
          (Api.err "Cannot read properties of null (reading 'skills')") 401)
  /\ Api.getUser env_db_down = Some alice
  /\ skillsArray (Api.VObj [("skills", fourSkills)]) <> None
  /\ fst (Api.handleRoute four env_db_down st0) =
     Api.Return (Api.reply_status (Api.err "connection reset") 401)
  /\ Api.findOne "u-1"
       (Api.user_skills (snd (Api.handleRoute four env_db_down st0))) =
     Some aliceRecord.
Proof.
  cbn zeta. repeat split. discriminate.
Qed.

(* ------------------------------------------------------------------ *)
(** ** Which errors reach the caller, and how *)

Section Answers.

Variable P : Api.Response -> Prop.

Lemma answers_ret response : P response -> answers P (Api.ret response).
Proof. intros H env st r st' E. injection E as <- _. exact H. Qed.

Lemma answers_bind {A} (m : Api.M A) (k : A -> Api.M Api.Response) :
  (forall a, answers P (k a)) -> answers P (Api.bind m k).
Proof.
  intros H env st r st' E. unfold Api.bind in E.
  destruct (m env st) as [[a|e] st1]; [|discriminate].
  exact (H a _ _ _ _ E).
Qed.

Lemma answers_try (m : Api.M Api.Response) (h : string -> Api.M Api.Response) :
  answers P m -> (forall e, answers P (h e)) -> answers P (Api.try_catch m h).
Proof.
  intros Hm Hh env st r st' E. unfold Api.try_catch in E.
  destruct (m env st) as [[a|e] st1] eqn:Em.
  - injection E as <- <-. exact (Hm _ _ _ _ Em).
  - exact (Hh e _ _ _ _ E).
Qed.

(** A route's own [catch] turns every outcome into an answer. *)
Lemma own_catch (m : Api.M Api.Response) env st :
  answers P m ->
  (forall e, P (Api.reply_status (Api.err e) 401)) ->
  exists response st',
    Api.try_catch m Api.unauthorized env st = (Api.Return response, st')
    /\ P response.
Proof.
  intros Hm H401. unfold Api.try_catch.
  destruct (m env st) as [[a|e] st1] eqn:E.
  - exists a, st1. split; [reflexivity | exact (Hm _ _ _ _ E)].
  - eexists _, st1. split; [reflexivity | apply H401].
Qed.

End Answers.

(** Walk a handler's body down to the answers it builds; [solve] proves
    the property of each. *)
Ltac answers_with solve :=
  repeat first
    [ apply answers_bind; intros
    | apply answers_try; [|intros]
    | apply answers_ret; solve
    | match goal with
      | |- answers _ (if ?c then _ else _) => destruct c
      | |- answers _ (match ?x with _ => _ end) => destruct x
      end ].

Ltac never500 :=
  unfold never500, Api.unauthorized, Api.notFound;
  answers_with ltac:(cbn; discriminate).

Lemma auth_none env st :
  Api.getUser env = None ->
  Api.getAuthenticatedUser env st =
  (Api.Throw "Unauthorized - Please log in", st).
Proof.
  intros H. unfold Api.getAuthenticatedUser, Api.bind, Api.ask.
  now rewrite H.
Qed.

Lemma prop_read v k env st :
  v <> Api.VNull -> v <> Api.VUndefined ->
  Api.prop v k env st = (Api.Return (read v k), st).
Proof. destruct v; intros H1 H2; try contradiction; reflexivity. Qed.

(** The handler always answers, and a 500 is the generic one. *)
Lemma handleRoute_answers request env st :
  exists response st',
    Api.handleRoute request env st = (Api.Return response, st')
    /\ (Api.status response = 500%Z -> response = Api.internalServerError).
Proof.
  unfold Api.handleRoute.
  match goal with
  | |- context [Api.try_catch ?m ?h] =>
      assert (Hm : never500 m); [| set (inner := m) in * ]
  end.
  { never500. }
  unfold Api.try_catch.
  destruct (inner env st) as [[a|e] st1] eqn:E.
  - exists a, st1. split; [reflexivity|].
    intros H. now elim (Hm _ _ _ _ E).
  - exists Api.internalServerError, st1. split; reflexivity.
Qed.

(** Every answer carries the four CORS headers. *)
Lemma handleRoute_cors request env st :
  exists response st',
    Api.handleRoute request env st = (Api.Return response, st')
    /\ cors response.
Proof.
  unfold Api.handleRoute.
  match goal with
  | |- context [Api.try_catch ?m ?h] =>
      assert (Hm : answers cors m); [| set (inner := m) in * ]
  end.
  { unfold Api.unauthorized, Api.notFound.
    answers_with ltac:(repeat split). }
  unfold Api.try_catch.
  destruct (inner env st) as [[a|e] st1] eqn:E.
  - exists a, st1. split; [reflexivity | exact (Hm _ _ _ _ E)].
  - exists Api.internalServerError, st1. split; [reflexivity | repeat split].
Qed.

Lemma not_handled route method :
  Api.handled route method = false ->
  forall r m, In (r, m) Api.routes -> (route =? r) && (method =? m) = false.
Proof.
  unfold Api.handled. intros H r m Hin.
  destruct ((route =? r) && (method =? m)) eqn:E; [|reflexivity].
  rewrite <- H. symmetry. apply existsb_exists. now exists (r, m).
Qed.

(** C6, as the code has it.  A request that matches no handler is
    answered 404 with "Route <path> not found" once the database
    connection is there.  The handler always answers, and an answer of
    status 500 is the generic "Internal server error": that is what a
    failed connection gives on every route, and what a database error
    gives on a route without a catch of its own (GET /status).  The five
    authenticated routes have their own catch and never answer 500 once
    the connection is there: an error inside them is answered 401 with
    the error's own message, as shown for a database error on GET
    /user/skills and GET /dashboard/users and for the missing sign-in on
    all five.  An error the auth provider reports on sign-up, sign-in or
    sign-out is answered 400 with the provider's message. *)
Theorem C6_errors_by_route :
  forall (request : Api.Request) (env : Api.Env) (st : Api.State),
    let route := route_of request in
    let method := Api.method request in
    let answer := fst (Api.handleRoute request env st) in
    (connected env st ->
     Api.handled route method = false ->
     Api.handleRoute request env st =
     (Api.Return (Api.notFound route), opened st))
    /\ (exists response st',
          Api.handleRoute request env st = (Api.Return response, st')
          /\ (Api.status response = 500%Z ->
              response = Api.internalServerError))
    /\ (forall e,
          Api.client st = false -> Api.connect_fails env = Some e ->
          answer = Api.Return Api.internalServerError)
    /\ (forall e,
          connected env st -> Api.db_fails env = Some e ->
          route = "/status" -> method = "GET" ->
          answer = Api.Return Api.internalServerError)
    /\ (connected env st ->
        In (route, method) authenticatedRoutes ->
        exists response,
          answer = Api.Return response /\ Api.status response <> 500%Z)
    /\ (forall e user,
          connected env st -> Api.db_fails env = Some e ->
          Api.getUser env = Some user ->
          In (route, method)
             [("/user/skills", "GET"); ("/dashboard/users", "GET")] ->
          answer = Api.Return (Api.reply_status (Api.err e) 401))
    /\ (connected env st -> Api.getUser env = None ->
        In (route, method) authenticatedRoutes ->
        answer =
        Api.Return (Api.reply_status (Api.err "Unauthorized - Please log in") 401))
    /\ (forall e b,
          connected env st ->
          Api.body request = Api.Return b ->
          b <> Api.VNull -> b <> Api.VUndefined ->
          (route = "/auth/signup" /\ method = "POST" /\
           Api.error (Api.signUp env (read b "email") (read b "password")) = Some e)
          \/ (route = "/auth/signin" /\ method = "POST" /\
              Api.error (Api.signInWithPassword env (read b "email")
                                                (read b "password")) = Some e) ->
          answer = Api.Return (Api.reply_status (Api.err e) 400))
    /\ (forall e,
          connected env st -> Api.signOut env = Some e ->
          route = "/auth/signout" -> method = "POST" ->
          answer = Api.Return (Api.reply_status (Api.err e) 400)).
Proof.
  intros request env st route method answer. subst route method answer.
  repeat match goal with |- _ /\ _ => split end.
  - intros Hconn Hnot.
    pose proof (not_handled _ _ Hnot) as H.
    unfold Api.handleRoute.
    change ("/" ++ String.concat "/" (Api.path request)) with (route_of request).
    unfold Api.try_catch at 1, Api.bind at 1.
    rewrite (connect_ok _ _ Hconn).
    rewrite !H by (cbn; tauto).
    reflexivity.
  - apply handleRoute_answers.
  - intros e Hclient Hfail.
    destruct (connect_fail _ _ _ Hclient Hfail) as (st' & E).
    unfold Api.handleRoute, Api.try_catch at 1, Api.bind at 1.
    now rewrite E.
  - intros e Hconn Hdb Hroute Hmethod.
    enter_route Hroute Hmethod Hconn.
    unfold Api.bind. now rewrite (collection_down _ _ _ _ Hdb).
  - intros Hconn Hin. unfold authenticatedRoutes in Hin.
    destruct Hin as [E|[E|[E|[E|[E|[]]]]]];
      apply pair_equal_spec in E as [Hroute Hmethod];
      symmetry in Hroute, Hmethod;
      enter_route Hroute Hmethod Hconn;
      match goal with
      | |- context [Api.try_catch ?m Api.unauthorized env ?s] =>
          destruct (own_catch (fun r => Api.status r <> 500%Z) m env s)
            as (response & st' & -> & Hr);
          [ never500 | intros; cbn; discriminate
          | exists response; split; [reflexivity | exact Hr] ]
      end.
  - intros e user Hconn Hdb Huser Hin.
    destruct Hin as [E|[E|[]]];
      apply pair_equal_spec in E as [Hroute Hmethod];
      symmetry in Hroute, Hmethod;
      enter_route Hroute Hmethod Hconn;
      unfold Api.try_catch, Api.bind;
      rewrite (auth_ok _ _ _ Huser), (collection_down _ _ _ _ Hdb);
      reflexivity.
  - intros Hconn Huser Hin. unfold authenticatedRoutes in Hin.
    destruct Hin as [E|[E|[E|[E|[E|[]]]]]];
      apply pair_equal_spec in E as [Hroute Hmethod];
      symmetry in Hroute, Hmethod;
      enter_route Hroute Hmethod Hconn;
      unfold Api.try_catch, Api.bind;
      rewrite (auth_none _ _ Huser);
      reflexivity.
  - intros e b Hconn Hbody Hnull Hundef
           [(Hroute & Hmethod & He) | (Hroute & Hmethod & He)];
      enter_route Hroute Hmethod Hconn;
      unfold Api.bind, Api.request_json, Api.ask;
      rewrite Hbody, !prop_read by assumption;
      now rewrite He.
  - intros e Hconn Hout Hroute Hmethod.
    enter_route Hroute Hmethod Hconn.
    unfold Api.bind, Api.ask. now rewrite Hout.
Qed.

(** C6 does not hold as stated: with the database failing under an
    authenticated GET /user/skills the caller gets status 401 and the
    database's own message, not the generic 500. *)
Lemma C6_database_error_is_401_with_detail :
  Api.db_fails env_db_down = Some "connection reset"
  /\ fst (Api.handleRoute GET_skills env_db_down st0) =
     Api.Return (Api.reply_status (Api.err "connection reset") 401)
  /\ fst (Api.handleRoute GET_skills env_db_down st0) <>
     Api.Return Api.internalServerError.
Proof.
  split; [reflexivity|]. split; [reflexivity|]. discriminate.
Qed.

(** X1.  Every answer of the handler carries the permissive CORS headers, and
    the OPTIONS handler answers 200 with them. *)
Theorem responses_carry_cors :
  (forall request env st,
      exists response st',
        Api.handleRoute request env st = (Api.Return response, st')
        /\ cors response)
  /\ Api.status Api.OPTIONS = 200%Z
  /\ cors Api.OPTIONS.
Proof.
  split; [exact handleRoute_cors|]. split; [reflexivity | repeat split].
Qed.

(* ------------------------------------------------------------------ *)
(** ** The spec's example, evaluated *)

Example match_example :
  Page.findMatchedJobs [jobA; jobB] ["Coding"; "Design"] "all" = [jobB; jobA].
Proof. reflexivity. Qed.

Example normalizedType_part_time :
  Page.normalizedType jobB = "parttime".
Proof. reflexivity. Qed.

(** Only the first hyphen goes: the two normalisations part on a type
    with two hyphens. *)
Example normalizedType_two_hyphens :
  let j := Job.mk 3 "" "" "" "Part--Time" [] in
  Page.normalizedType j = "part-time" /\ spec_normalizedType j = "parttime".
Proof. split; reflexivity. Qed.


Example skillFrequency_example :
  Page.getSkillFrequencyData exampleSkills exampleUsers =
  Page.mkChart ["Coding"; "Design"; "Writing"] [2; 1; 0]%Z.
Proof. reflexivity. Qed.

Example jobDemand_example :
  Page.getJobDemandData JsObject.prototype [jobA; jobB; jobA] =
  Page.mkChart ["Tech"; "Creative"] [Page.Num 2; Page.Num 1].
Proof. reflexivity. Qed.

Example post_four_skills :
  Api.handleRoute (POST_skills (Api.VObj [("skills", fourSkills)])) env_ok st0 =
  (Api.Return
     (Api.reply (Api.VObj [("message", Api.VStr "Skills updated successfully");
                           ("skills", fourSkills)])),
   Api.mkState true true
     [("_id", Api.VObjectId 1) :: skillsRecord alice fourSkills 1700000000]
     [] 2).
Proof. reflexivity. Qed.

(** An unmatched route while the connection cannot be opened: 500. *)
Example unmatched_route_without_connection :
  let env := Api.mkEnv (Some "ECONNREFUSED") None None quiet quiet None 0 "" in
  let request := Api.mkRequest ["nowhere"] "GET" (Api.Throw "") in
  Api.handled (route_of request) (Api.method request) = false
  /\ fst (Api.handleRoute request env st0) = Api.Return Api.internalServerError.
Proof. split; reflexivity. Qed.

(** A null body on POST /user/skills: reading [body.skills] throws inside
    the route's own try, and the answer is 401 with that message. *)
Example post_skills_null_body :
  fst (Api.handleRoute (POST_skills Api.VNull) env_ok st0) =
  Api.Return
    (Api.reply_status
       (Api.err "Cannot read properties of null (reading 'skills')") 401).
Proof. reflexivity. Qed.

(* ================================================================== *)
(** * Further properties of the matcher *)
(* ================================================================== *)

(** X2.  The matcher's normalisation of a job type (lowercase, then
    [replace('-', '')]) is the type lowercased with all hyphens removed
    exactly when the type has at most one hyphen. *)
Theorem normalizedType_agrees_iff_one_hyphen :
  forall job : Job.t,
    Page.normalizedType job = spec_normalizedType job <->
    (hyphens (Job.type job) <= 1)%nat.
Proof.
  intros job. unfold Page.normalizedType, spec_normalizedType.
  rewrite <- (strip_replace_first (Js.toLowerCase (Job.type job))).
  rewrite <- (hyphens_toLowerCase (Job.type job)).
  set (t := Js.toLowerCase (Job.type job)).
  transitivity (hyphens (Js.replace "-" "" t) = 0).
  - rewrite <- hyphen_free_hyphens. unfold hyphen_free. split; congruence.
  - rewrite hyphens_replace_first. lia.
Qed.

Section SortFacts.

Context {A : Type}.
Variable key : A -> Z.
Let desc (a b : A) : Z := (key b - key a)%Z.
Let ge_key (a b : A) : Prop := (key b <= key a)%Z.

Lemma insert_front x l :
  Forall (fun z => (key z <= key x)%Z) l -> Js.insert desc x l = x :: l.
Proof.
  destruct 1 as [|y r Hy _]; [reflexivity|].
  cbn [Js.insert]. unfold desc.
  now replace (key y - key x <=? 0)%Z with true by (symmetry; apply Z.leb_le; lia).
Qed.

(** Sorting a list that is already in descending order changes nothing. *)
Lemma sort_sorted_id l : StronglySorted ge_key l -> Js.sort desc l = l.
Proof.
  induction 1 as [|x l Hl IH Hx]; [reflexivity|].
  cbn [Js.sort fold_right]. fold (Js.sort desc l). rewrite IH.
  apply insert_front. exact Hx.
Qed.

Lemma filter_insert_sorted (q : A -> bool) x l :
  StronglySorted ge_key l ->
  filter q (Js.insert desc x l) =
  if q x then Js.insert desc x (filter q l) else filter q l.
Proof.
  induction 1 as [|y r Hr IH Hy]; cbn [Js.insert filter].
  - now destruct (q x).
  - destruct (desc x y <=? 0)%Z eqn:E.
    + cbn [filter]. destruct (q x); [|reflexivity].
      symmetry. apply insert_front.
      apply Z.leb_le in E. unfold desc in E.
      assert (Hall : Forall (fun z => (key z <= key x)%Z) (y :: r)).
      { constructor; [lia|]. eapply Forall_impl; [|exact Hy].
        unfold ge_key. intros; lia. }
      rewrite Forall_forall in *. intros z Hz.
      apply Hall. apply (proj1 (filter_In q z (y :: r))) in Hz. tauto.
    + cbn [filter]. rewrite IH.
      destruct (q y), (q x); cbn [Js.insert]; try rewrite E; reflexivity.
Qed.

(** Filtering commutes with the stable descending sort. *)
Lemma filter_sort (q : A -> bool) l :
  filter q (Js.sort desc l) = Js.sort desc (filter q l).
Proof.
  induction l as [|x l IH]; [reflexivity|].
  cbn [Js.sort fold_right filter]. fold (Js.sort desc l).
  rewrite filter_insert_sorted by apply (sort_sorted key).
  rewrite IH. now destruct (q x).
Qed.

End SortFacts.

Lemma findMatchedJobs_cons J s S f :
  Page.findMatchedJobs J (s :: S) f =
  Js.sort (Page.byMatches (s :: S)) (filter (included (s :: S) f) J).
Proof. reflexivity. Qed.

Lemma included_nil f job : included [] f job = false.
Proof.
  unfold included. destruct (Page.hasMatchingSkill [] job) eqn:E; [|reflexivity].
  apply hasMatchingSkill_sharesTag in E. now apply sharesTag_nil in E.
Qed.

Lemma findMatchedJobs_perm J S f :
  Permutation (Page.findMatchedJobs J S f) (filter (included S f) J).
Proof.
  destruct S as [|s S].
  - rewrite filter_none by (intros; apply included_nil). constructor.
  - rewrite findMatchedJobs_cons. apply sort_perm.
Qed.

Lemma filter_length_le {A} (f : A -> bool) l :
  (List.length (filter f l) <= List.length l)%nat.
Proof. induction l as [|x l IH]; simpl; [lia | destruct (f x); simpl; lia]. Qed.

Lemma existsb_filter_length {A} (f : A -> bool) l :
  existsb f l = true <-> (1 <= List.length (filter f l))%nat.
Proof.
  induction l as [|x l IH]; simpl; [split; [discriminate | lia]|].
  destruct (f x); simpl; [split; [lia | reflexivity] | exact IH].
Qed.

(** X3.  The matcher neither invents, drops nor doubles a job: its output is
    a rearrangement of the catalog's jobs that pass the filter, so it is
    no longer than the catalog, and every job in it has between one
    shared tag and as many as it has tags. *)
Theorem match_rearranges_included_jobs :
  forall (J : list Job.t) (S : list string) (f : string),
    let out := Page.findMatchedJobs J S f in
    Permutation out (filter (included S f) J)
    /\ (List.length out <= List.length J)%nat
    /\ (forall job,
          In job out ->
          (1 <= Page.matches S job <= Z.of_nat (List.length (Job.tags job)))%Z).
Proof.
  intros J S f out. subst out.
  pose proof (findMatchedJobs_perm J S f) as HP.
  split; [exact HP | split].
  - rewrite (Permutation_length HP). apply filter_length_le.
  - intros job H. apply findMatchedJobs_In in H as (_ & H & _).
    unfold Page.hasMatchingSkill, Js.some in H.
    apply existsb_filter_length in H. unfold Page.matches.
    pose proof (filter_length_le (fun tag => Js.includes S tag) (Job.tags job)).
    lia.
Qed.

(** X4.  Matching is idempotent: run on its own output, with the same skills
    and filter, the matcher returns that output unchanged. *)
Theorem match_idempotent :
  forall (J : list Job.t) (S : list string) (f : string),
    Page.findMatchedJobs (Page.findMatchedJobs J S f) S f =
    Page.findMatchedJobs J S f.
Proof.
  intros J [|s S] f; [reflexivity|].
  rewrite !findMatchedJobs_cons.
  set (l := filter (included (s :: S) f) J).
  rewrite (filter_ext_in (included (s :: S) f) (fun _ => true)).
  - rewrite filter_true. unfold Page.byMatches.
    apply (sort_sorted_id (Page.matches (s :: S))).
    apply (sort_sorted (Page.matches (s :: S))).
  - intros job H. apply sort_In in H. unfold l in H.
    apply filter_In in H. tauto.
Qed.

(** X5.  The type filter commutes with the ranking: the matches for a filter
    are the matches for "all" with the jobs of other types struck out,
    in the same order. *)
Theorem match_filter_after_ranking :
  forall (J : list Job.t) (S : list string) (f : string),
    Page.findMatchedJobs J S f =
    filter (Page.matchesFilter f) (Page.findMatchedJobs J S "all").
Proof.
  intros J [|s S] f; [reflexivity|].
  rewrite !findMatchedJobs_cons. unfold Page.byMatches.
  rewrite (filter_sort (Page.matches (s :: S))).
  f_equal. rewrite filter_twice. apply filter_ext. intros job.
  unfold included, Page.matchesFilter. cbn [String.eqb Ascii.eqb Bool.eqb orb].
  rewrite andb_true_r. apply andb_comm.
Qed.

Lemma includes_ext S S' :
  (forall x, In x S <-> In x S') ->
  forall x, Js.includes S x = Js.includes S' x.
Proof.
  intros H x. destruct (Js.includes S x) eqn:E, (Js.includes S' x) eqn:E';
    trivial.
  - apply includes_In, H, includes_In in E. congruence.
  - apply includes_In, H, includes_In in E'. congruence.
Qed.

(** X6.  The matcher reads the user's skills as a set: two skill lists with
    the same members, in any order and with any repetitions, give the
    same output. *)
Theorem match_depends_on_skill_set :
  forall (J : list Job.t) (S S' : list string) (f : string),
    (forall x, In x S <-> In x S') ->
    Page.findMatchedJobs J S f = Page.findMatchedJobs J S' f.
Proof.
  intros J S S' f H.
  pose proof (includes_ext S S' H) as Hinc.
  assert (Hm : forall job, Page.matches S job = Page.matches S' job).
  { intros job. unfold Page.matches. do 2 f_equal.
    apply filter_ext. exact Hinc. }
  assert (Hi : forall job, included S f job = included S' f job).
  { intros job. unfold included, Page.hasMatchingSkill, Js.some. f_equal.
    induction (Job.tags job) as [|t l IH]; [reflexivity|].
    cbn [existsb]. now rewrite Hinc, IH. }
  destruct S as [|s S], S' as [|s' S'].
  - reflexivity.
  - destruct (proj2 (H s') (or_introl eq_refl)).
  - destruct (proj1 (H s) (or_introl eq_refl)).
  - rewrite !findMatchedJobs_cons.
    rewrite (filter_ext _ _ Hi).
    apply sort_ext. intros a b. unfold Page.byMatches. now rewrite !Hm.
Qed.

(** [match_depends_on_skill_set] on a reordered list with a repetition. *)
Lemma match_depends_on_skill_set_witness :
  Page.findMatchedJobs [jobA; jobB] ["Coding"; "Design"] "all" =
  Page.findMatchedJobs [jobA; jobB] ["Design"; "Coding"; "Design"] "all".
Proof.
  apply (match_depends_on_skill_set [jobA; jobB] ["Coding"; "Design"]
           ["Design"; "Coding"; "Design"] "all").
  intros x. simpl. tauto.
Defined.

Lemma filter_incl_length {A} (f g : A -> bool) l :
  (forall x, f x = true -> g x = true) ->
  (List.length (filter f l) <= List.length (filter g l))%nat.
Proof.
  intros H. induction l as [|x l IH]; [reflexivity|].
  simpl. destruct (f x) eqn:E.
  - rewrite (H x E). simpl. lia.
  - destruct (g x); simpl; lia.
Qed.

(** X7.  Adding skills never loses a match: every job matched for a skill
    list is matched for any larger one, with at least as many shared
    tags. *)
Theorem match_monotone_in_skills :
  forall (J : list Job.t) (S S' : list string) (f : string) (job : Job.t),
    incl S S' ->
    In job (Page.findMatchedJobs J S f) ->
    In job (Page.findMatchedJobs J S' f)
    /\ (Page.matches S job <= Page.matches S' job)%Z.
Proof.
  intros J S S' f job Hincl H.
  apply findMatchedJobs_In in H as (HJ & HS & Hf).
  split.
  - apply findMatchedJobs_In. repeat split; trivial.
    apply hasMatchingSkill_sharesTag in HS as (tag & Ht & Hs).
    apply hasMatchingSkill_sharesTag. exists tag. auto.
  - unfold Page.matches. apply inj_le. apply filter_incl_length.
    intros tag Ht. apply includes_In. apply Hincl. now apply includes_In.
Qed.

(** [match_monotone_in_skills] on the example catalog. *)
Lemma match_monotone_in_skills_witness :
  In jobB (Page.findMatchedJobs [jobA; jobB] ["Design"; "Coding"] "all")
  /\ (Page.matches ["Design"] jobB <= Page.matches ["Design"; "Coding"] jobB)%Z.
Proof.
  apply (match_monotone_in_skills [jobA; jobB] ["Design"] ["Design"; "Coding"]
           "all" jobB).
  - intros x [<-|[]]. now left.
  - left. reflexivity.
Defined.

(* ================================================================== *)
(** * The skill selection *)
(* ================================================================== *)

Lemma handleSkillSelection_step sel x :
  (List.length sel <= 3)%nat -> NoDup sel ->
  (List.length (PageState.handleSkillSelection sel x) <= 3)%nat
  /\ NoDup (PageState.handleSkillSelection sel x)
  /\ incl (PageState.handleSkillSelection sel x) (x :: sel).
Proof.
  intros Hlen Hnd. unfold PageState.handleSkillSelection.
  destruct (Js.includes sel x) eqn:E.
  - split; [|split].
    + pose proof (filter_length_le (fun s => negb (s =? x)) sel). lia.
    + now apply filter_NoDup.
    + intros y Hy. apply filter_In in Hy. right. tauto.
  - destruct (List.length sel <? 3)%nat eqn:L.
    + apply Nat.ltb_lt in L. split; [|split].
      * rewrite length_app. simpl. lia.
      * apply NoDup_app; [exact Hnd | repeat constructor; intros [] |].
        intros y Hy [<-|[]]. apply includes_In in Hy. congruence.
      * intros y Hy. apply in_app_or in Hy as [Hy|[<-|[]]];
          [now right | now left].
    + split; [exact Hlen | split; [exact Hnd|]].
      intros y Hy. now right.
Qed.

Lemma selection_from sel clicks :
  (List.length sel <= 3)%nat -> NoDup sel ->
  let sel' := fold_left PageState.handleSkillSelection clicks sel in
  (List.length sel' <= 3)%nat /\ NoDup sel'
  /\ incl sel' (sel ++ clicks).
Proof.
  revert sel. induction clicks as [|x clicks IH]; intros sel Hlen Hnd.
  - cbn. rewrite app_nil_r. split; [exact Hlen | split; [exact Hnd|]].
    apply incl_refl.
  - cbn [fold_left].
    destruct (handleSkillSelection_step sel x Hlen Hnd) as (H1 & H2 & H3).
    destruct (IH _ H1 H2) as (G1 & G2 & G3).
    split; [exact G1 | split; [exact G2|]].
    intros y Hy. apply G3 in Hy. apply in_app_or in Hy as [Hy|Hy].
    + apply H3 in Hy as [<-|Hy]; apply in_or_app; [right; now left | now left].
    + apply in_or_app. right. now right.
Qed.

(** X8.  Whatever buttons are clicked, in whatever order, starting from the
    empty selection: at most three skills are selected, none twice, and
    only skills that were clicked. *)
Theorem selection_capped_and_distinct :
  forall clicks : list string,
    let selected := fold_left PageState.handleSkillSelection clicks [] in
    (List.length selected <= 3)%nat
    /\ NoDup selected
    /\ incl selected clicks.
Proof.
  intros clicks.
  apply (selection_from [] clicks); [cbn; lia | constructor].
Qed.

(** X9.  A click on a selected skill always deselects it, also when three are
    selected; a click on an unselected skill selects it exactly when
    fewer than three are selected; and clicking an unselected skill
    twice gives the selection back as it was. *)
Theorem selection_toggle :
  forall (selected : list string) (skill : string),
    (In skill selected ->
     ~ In skill (PageState.handleSkillSelection selected skill))
    /\ (~ In skill selected ->
        (In skill (PageState.handleSkillSelection selected skill) <->
         (List.length selected < 3)%nat)
        /\ PageState.handleSkillSelection
             (PageState.handleSkillSelection selected skill) skill = selected).
Proof.
  intros sel x. unfold PageState.handleSkillSelection. split.
  - intros H. apply includes_In in H. rewrite H.
    intros G. apply filter_In in G as (_ & G).
    now rewrite String.eqb_refl in G.
  - intros H.
    assert (E : Js.includes sel x = false).
    { destruct (Js.includes sel x) eqn:E; [|reflexivity].
      now apply includes_In in E. }
    rewrite E.
    destruct (List.length sel <? 3)%nat eqn:L.
    + apply Nat.ltb_lt in L. split.
      * split; [intros _; exact L | intros _; apply in_or_app; right; now left].
      * assert (E' : Js.includes (sel ++ [x]) x = true)
          by (apply includes_In, in_or_app; right; now left).
        rewrite E'. rewrite filter_app. cbn [filter].
        rewrite String.eqb_refl. cbn [negb]. rewrite app_nil_r.
        rewrite (filter_ext_in _ (fun _ => true)); [apply filter_true|].
        intros y Hy. apply negb_true_iff, String.eqb_neq. congruence.
    + rewrite E, L. apply Nat.ltb_ge in L. split; [|reflexivity].
      split; [contradiction | lia].
Qed.

(* ================================================================== *)
(** * Further properties of the dashboard *)
(* ================================================================== *)

Lemma list_sum_add {A} (f g : A -> nat) l :
  list_sum (map (fun x => f x + g x) l) =
  list_sum (map f l) + list_sum (map g l).
Proof.
  unfold list_sum. induction l as [|x l IH]; cbn [map fold_right]; lia.
Qed.

Lemma list_sum_cons (n : nat) l : list_sum (n :: l) = n + list_sum l.
Proof. reflexivity. Qed.

Lemma indicator_sum (x : string) L :
  NoDup L ->
  list_sum (map (fun c => if string_dec x c then 1 else 0) L) =
  if in_dec string_dec x L then 1 else 0.
Proof.
  induction 1 as [|y L Hy HL IH]; [reflexivity|].
  cbn [map]. rewrite list_sum_cons, IH.
  destruct (string_dec x y) as [->|Hxy].
  - destruct (in_dec string_dec y L); [contradiction|].
    destruct (in_dec string_dec y (y :: L)) as [|Hn]; [reflexivity|].
    elim Hn. now left.
  - destruct (in_dec string_dec x L) as [Hin|Hout];
      destruct (in_dec string_dec x (y :: L)) as [Hin'|Hout'];
      try reflexivity.
    + elim Hout'. now right.
    + destruct Hin' as [E|Hin']; [now elim Hxy | contradiction].
Qed.

(** Counting the occurrences of each name of a list without repetitions
    counts the elements that are among those names. *)
Lemma count_occ_sum l L :
  NoDup L ->
  list_sum (map (count_occ string_dec l) L) =
  List.length
    (filter (fun x => if in_dec string_dec x L then true else false) l).
Proof.
  intros HL. induction l as [|x r IH]; cbn [count_occ filter].
  - clear HL. induction L as [|y L IH]; [reflexivity|].
    cbn [map]. now rewrite list_sum_cons, IH.
  - rewrite (map_ext (fun c => count_occ string_dec (x :: r) c)
               (fun c => (if string_dec x c then 1 else 0)
                         + count_occ string_dec r c))
      by (intros c; cbn; now destruct (string_dec x c)).
    rewrite list_sum_add, IH, (indicator_sum x L HL).
    now destruct (in_dec string_dec x L).
Qed.

(** X10.  The job-demand chart accounts for every job exactly once.  Each
    datum is what [expectedCount] gives for its label and the number of
    jobs of that category; the numbers of jobs of the labels add up to
    the number of jobs whose category is not [__proto__], each label has
    at least one job, no category is listed twice and there is one datum
    per label.  Where no category is [__proto__] or a name that
    [Object.prototype] answers to, every datum is the number of jobs of
    its label and the data add up to the number of jobs. *)
Theorem jobDemand_totals :
  forall (prototype : string -> option string) (jobs : list Job.t),
    let chart := Page.getJobDemandData prototype jobs in
    map Some (Page.data chart) =
      map (fun c => expectedCount prototype c (jobsOf c jobs))
          (Page.labels chart)
    /\ list_sum (map (fun c => jobsOf c jobs) (Page.labels chart)) =
       List.length (filter (fun job => settable (Job.category job)) jobs)
    /\ Forall (fun c => (1 <= jobsOf c jobs)%nat) (Page.labels chart)
    /\ NoDup (Page.labels chart)
    /\ List.length (Page.labels chart) = List.length (Page.data chart)
    /\ ((forall job,
            In job jobs ->
            Job.category job <> "__proto__"
            /\ prototype (Job.category job) = None) ->
        Page.data chart =
          map (fun c => Page.Num (Z.of_nat (jobsOf c jobs))) (Page.labels chart)
        /\ list_sum (map (fun c => jobsOf c jobs) (Page.labels chart)) =
           List.length jobs).
Proof.
  intros prototype jobs chart. subst chart.
  cbn [Page.getJobDemandData Page.data Page.labels].
  set (o := Page.categoryCounts prototype jobs).
  assert (Hnd : NoDup (Obj.names o)) by apply categoryCounts_NoDup.
  assert (Hentry : forall c v,
             In (c, v) (JsObject.ownProperties o) ->
             expectedCount prototype c (jobsOf c jobs) = Some v).
  { intros c v H. apply (Permutation_in _ (ownProperties_perm o)) in H.
    apply (In_get _ _ _ Hnd) in H. unfold o in H.
    now rewrite categoryCounts_get in H. }
  assert (Hlabel : forall c,
             In c (JsObject.keys o) <->
             settable c = true /\ In c (map Job.category jobs)).
  { intros c. unfold o.
    rewrite keys_In, categoryCounts_names, first_seen_In, filter_In. tauto. }
  assert (Hsum : list_sum (map (fun c => jobsOf c jobs) (JsObject.keys o)) =
                 List.length
                   (filter (fun job => settable (Job.category job)) jobs)).
  { unfold jobsOf.
    rewrite (count_occ_sum _ _ (keys_NoDup o Hnd)).
    rewrite <- (length_map Job.category
                  (filter (fun job => settable (Job.category job)) jobs)).
    rewrite (map_filter_key Job.category settable). f_equal.
    apply filter_ext_in. intros c Hc.
    destruct (in_dec string_dec c (JsObject.keys o)) as [H|H].
    - apply Hlabel in H as [H _]. now rewrite H.
    - destruct (settable c) eqn:E; [|reflexivity].
      elim H. apply Hlabel. now split. }
  split; [|split; [exact Hsum | split; [|split; [|split]]]].
  - unfold JsObject.values, JsObject.keys. rewrite !map_map.
    apply map_ext_in. intros [c v] H. cbn [fst snd]. symmetry.
    now apply Hentry.
  - apply Forall_forall. intros c Hc.
    apply Hlabel in Hc as [_ Hc].
    assert (jobsOf c jobs <> 0); [|lia].
    apply jobsOf_pos. apply in_map_iff in Hc as (j & <- & Hj). now exists j.
  - now apply keys_NoDup.
  - apply keys_values_length.
  - intros Hplain. split.
    + unfold JsObject.values, JsObject.keys. rewrite map_map.
      apply map_ext_in. intros [c v] H. cbn [fst snd].
      pose proof (Hentry c v H) as E. unfold expectedCount in E.
      destruct (c =? "__proto__"); [discriminate|].
      destruct (jobsOf c jobs) as [|n] eqn:En; [discriminate|].
      assert (Hne : jobsOf c jobs <> 0) by lia.
      apply jobsOf_pos in Hne as (j & Hj & <-).
      destruct (Hplain j Hj) as [_ Hp]. rewrite Hp in E.
      now injection E as <-.
    + rewrite Hsum. f_equal.
      rewrite (filter_ext_in _ (fun _ => true)); [apply filter_true|].
      intros j Hj. destruct (Hplain j Hj) as [Hp _].
      unfold settable. now apply negb_true_iff, String.eqb_neq.
Qed.

(* ================================================================== *)
(** * Further properties of the API route *)
(* ================================================================== *)

Section Preserves.

Variable env : Api.Env.
Variable R : Api.State -> Api.State -> Prop.
Hypothesis R_refl : forall st, R st st.
Hypothesis R_trans : forall a b c, R a b -> R b c -> R a c.
(** [R] does not look at the module-level handles. *)
Hypothesis R_handles :
  forall st c d,
    R st (Api.mkState c d (Api.user_skills st) (Api.status_checks st)
                      (Api.next_oid st)).

Lemma preserves_ret {A} (a : A) : preserves env R (Api.ret a).
Proof. intros st r st' E. injection E as _ <-. apply R_refl. Qed.

Lemma preserves_throw {A} e : preserves env R (@Api.throw A e).
Proof. intros st r st' E. injection E as _ <-. apply R_refl. Qed.

Lemma preserves_ask : preserves env R Api.ask.
Proof. intros st r st' E. injection E as _ <-. apply R_refl. Qed.

Lemma preserves_bind {A B} (m : Api.M A) (k : A -> Api.M B) :
  preserves env R m -> (forall a, preserves env R (k a)) ->
  preserves env R (Api.bind m k).
Proof.
  intros Hm Hk st r st' E. unfold Api.bind in E.
  destruct (m env st) as [[a|e] st1] eqn:Em.
  - eapply R_trans; [exact (Hm _ _ _ Em) | exact (Hk a _ _ _ E)].
  - injection E as _ <-. exact (Hm _ _ _ Em).
Qed.

Lemma preserves_try {A} (m : Api.M A) (h : string -> Api.M A) :
  preserves env R m -> (forall e, preserves env R (h e)) ->
  preserves env R (Api.try_catch m h).
Proof.
  intros Hm Hh st r st' E. unfold Api.try_catch in E.
  destruct (m env st) as [[a|e] st1] eqn:Em.
  - injection E as _ <-. exact (Hm _ _ _ Em).
  - eapply R_trans; [exact (Hm _ _ _ Em) | exact (Hh e _ _ _ E)].
Qed.

Lemma preserves_connect : preserves env R Api.connectToMongo.
Proof.
  intros st r st' E. unfold Api.connectToMongo in E.
  destruct (Api.client st).
  - injection E as _ <-. apply R_refl.
  - cbn [Api.user_skills Api.status_checks Api.next_oid Api.db] in E.
    destruct (Api.connect_fails env); injection E as _ <-; apply R_handles.
Qed.

Lemma preserves_auth : preserves env R Api.getAuthenticatedUser.
Proof.
  intros st r st' E.
  cbv [Api.bind Api.getAuthenticatedUser Api.ask Api.ret Api.throw] in E.
  destruct (Api.getUser env); injection E as _ <-; apply R_refl.
Qed.

(** The continuation of [getAuthenticatedUser] runs for the signed-in
    user only. *)
Lemma preserves_bind_auth {B} (k : Api.AuthUser.t -> Api.M B) :
  (forall user, Api.getUser env = Some user -> preserves env R (k user)) ->
  preserves env R (Api.bind Api.getAuthenticatedUser k).
Proof.
  intros Hk st r st' E.
  cbv [Api.bind Api.getAuthenticatedUser Api.ask Api.ret Api.throw] in E.
  destruct (Api.getUser env) as [user|] eqn:Eu.
  - exact (Hk user eq_refl _ _ _ E).
  - injection E as _ <-. apply R_refl.
Qed.

(** The continuation of [ask] runs with the environment itself. *)
Lemma preserves_bind_ask {B} (k : Api.Env -> Api.M B) :
  preserves env R (k env) -> preserves env R (Api.bind Api.ask k).
Proof. intros Hk st r st' E. exact (Hk _ _ _ E). Qed.

Lemma preserves_json request : preserves env R (Api.request_json request).
Proof. intros st r st' E. injection E as _ <-. apply R_refl. Qed.

Lemma preserves_prop v k : preserves env R (Api.prop v k).
Proof. destruct v; (apply preserves_ret || apply preserves_throw). Qed.

Lemma preserves_collection {A} (db : bool) (op : Api.State -> A * Api.State) :
  (forall st, R st (snd (op st))) ->
  preserves env R (Api.collection db op).
Proof.
  intros Hop st r st' E. unfold Api.collection in E.
  destruct db; [|injection E as _ <-; apply R_refl].
  destruct (Api.db_fails env); [injection E as _ <-; apply R_refl|].
  specialize (Hop st). destruct (op st) as [a st1].
  injection E as _ <-. exact Hop.
Qed.

End Preserves.

(** Walk a handler's body; [leaf] proves what a writing operation does
    to the state. *)
Ltac walk_state leaf :=
  repeat first
    [ apply preserves_ret; assumption
    | apply preserves_throw; assumption
    | apply preserves_ask; assumption
    | apply preserves_connect; assumption
    | apply preserves_json; assumption
    | apply preserves_prop; assumption
    | match goal with
      | |- preserves _ _ (Api.bind Api.getAuthenticatedUser _) =>
          apply preserves_bind_auth; try assumption; intros ? ?
      | |- preserves _ _ (Api.bind Api.ask _) => apply preserves_bind_ask
      end
    | apply preserves_bind; try assumption; [ | intros ? ]
    | apply preserves_try; try assumption; [ | intros ? ]
    | apply preserves_collection; try assumption; intros ?; leaf
    | match goal with
      | |- preserves _ _ (if ?c then _ else _) =>
          destruct c eqn:?; try discriminate
      | |- preserves _ _ (match ?x with _ => _ end) => destruct x
      end ].

Lemma handleRoute_preserves request env (R : Api.State -> Api.State -> Prop) :
  (forall st, R st st) ->
  (forall a b c, R a b -> R b c -> R a c) ->
  (forall st c d,
      R st (Api.mkState c d (Api.user_skills st) (Api.status_checks st)
                        (Api.next_oid st))) ->
  ((route_of request =? "/user/skills") && (Api.method request =? "POST") = true ->
   forall user skills st,
     Api.getUser env = Some user ->
     R st (snd (Api.replaceOne_upsert (Api.AuthUser.id user)
                  (skillsRecord user skills (Api.now env)) st))) ->
  ((route_of request =? "/status") && (Api.method request =? "POST") = true ->
   forall client_name st,
     R st (snd (Api.insertOne_status
                  (statusRecord (Api.uuid env) client_name (Api.now env)) st))) ->
  forall st, R st (state_after request env st).
Proof.
  intros R_refl R_trans R_handles Hskills Hstatus st.
  unfold state_after.
  destruct (Api.handleRoute request env st) as [r st'] eqn:E.
  revert st r st' E. change (preserves env R (Api.handleRoute request)).
  unfold Api.handleRoute.
  change ("/" ++ String.concat "/" (Api.path request)) with (route_of request).
  unfold Api.unauthorized.
  walk_state ltac:(first [ apply R_refl
                         | apply Hskills; first [reflexivity | assumption]
                         | apply Hstatus; reflexivity ]).
Qed.

Lemma on_route_true route method r m :
  (route =? r) && (method =? m) = true -> route = r /\ method = m.
Proof.
  intros H. apply andb_true_iff in H as [H1 H2].
  now apply String.eqb_eq in H1, H2.
Qed.

Lemma replaceFirst_length id doc docs docs' :
  Api.replaceFirst id doc docs = Some docs' ->
  List.length docs' = List.length docs.
Proof.
  revert docs'. induction docs as [|d r IH]; intros docs' H; cbn in H;
    [discriminate|].
  destruct (Api.hasUserId id d).
  - now injection H as <-.
  - destruct (Api.replaceFirst id doc r) as [r'|]; [|discriminate].
    injection H as <-. cbn. now rewrite (IH r' eq_refl).
Qed.

Lemma replaceOne_upsert_user_skills id doc st :
  let st' := snd (Api.replaceOne_upsert id doc st) in
  (List.length (Api.user_skills st) <= List.length (Api.user_skills st'))%nat
  /\ Api.status_checks st' = Api.status_checks st.
Proof.
  unfold Api.replaceOne_upsert.
  destruct (Api.replaceFirst id doc (Api.user_skills st)) as [docs|] eqn:E;
    cbn [snd Api.user_skills Api.status_checks].
  - rewrite (replaceFirst_length _ _ _ _ E). auto.
  - rewrite length_app. cbn. split; [lia | reflexivity].
Qed.

(** X12.  The store is written by its two POST routes only, each in its own
    collection, and never without a signed-in user as far as the skills
    are concerned; no request removes a skills record, and the status
    log only grows at its end. *)
Theorem store_written_only_by_its_post :
  forall (request : Api.Request) (env : Api.Env) (st : Api.State),
    let st' := state_after request env st in
    (~ (route_of request = "/user/skills" /\ Api.method request = "POST") ->
     Api.user_skills st' = Api.user_skills st)
    /\ (~ (route_of request = "/status" /\ Api.method request = "POST") ->
        Api.status_checks st' = Api.status_checks st)
    /\ (Api.getUser env = None -> Api.user_skills st' = Api.user_skills st)
    /\ (List.length (Api.user_skills st) <= List.length (Api.user_skills st'))%nat
    /\ (exists added,
          Api.status_checks st' = (Api.status_checks st ++ added)%list).
Proof.
  intros request env st st'. subst st'.
  split; [|split; [|split; [|split]]].
  - intros Hne.
    apply (handleRoute_preserves request env
             (fun a b => Api.user_skills b = Api.user_skills a));
      try reflexivity; try congruence.
    intros H. now apply on_route_true in H.
  - intros Hne.
    apply (handleRoute_preserves request env
             (fun a b => Api.status_checks b = Api.status_checks a));
      try reflexivity; try congruence.
    + intros _ user skills st1 _. apply replaceOne_upsert_user_skills.
    + intros H. now apply on_route_true in H.
  - intros Hnone.
    apply (handleRoute_preserves request env
             (fun a b => Api.user_skills b = Api.user_skills a));
      try reflexivity; try congruence.
  - apply (handleRoute_preserves request env
             (fun a b => (List.length (Api.user_skills a) <=
                          List.length (Api.user_skills b))%nat));
      cbn.
    + intros a. lia.
    + intros a b c. lia.
    + intros a c d. lia.
    + intros _ user skills st1 _. apply replaceOne_upsert_user_skills.
    + intros _ client_name st1. lia.
  - apply (handleRoute_preserves request env
             (fun a b => exists added,
                  Api.status_checks b = (Api.status_checks a ++ added)%list)).
    + intros a. exists []. now rewrite app_nil_r.
    + intros a b c (l1 & E1) (l2 & E2). exists (l1 ++ l2)%list.
      now rewrite E2, E1, app_assoc.
    + intros a c d. exists []. now rewrite app_nil_r.
    + intros _ user skills st1 _. exists []. rewrite app_nil_r.
      apply replaceOne_upsert_user_skills.
    + intros _ client_name st1. eexists. reflexivity.
Qed.

(** X13.  No request touches another user's record: whoever is signed in (or
    nobody), the record found for any other user id is the same before
    and after the request. *)
Theorem other_users_records_untouched :
  forall (request : Api.Request) (env : Api.Env) (st : Api.State)
         (other : string),
    (forall user, Api.getUser env = Some user -> Api.AuthUser.id user <> other) ->
    Api.findOne other (Api.user_skills (state_after request env st)) =
    Api.findOne other (Api.user_skills st).
Proof.
  intros request env st other Hother.
  apply (handleRoute_preserves request env
           (fun a b => Api.findOne other (Api.user_skills b) =
                       Api.findOne other (Api.user_skills a)));
    try reflexivity; try congruence.
  intros _ user skills st1 Huser.
  apply (replaceOne_upsert_spec user skills (Api.now env) st1).
  intros E. now apply (Hother user Huser).
Qed.

(** [other_users_records_untouched] when alice overwrites her record in
    a store that holds bob's: bob's record is found as it was. *)
Lemma other_users_records_untouched_witness :
  let request := POST_skills (Api.VObj [("skills", fourSkills)]) in
  Api.findOne "u-2" (Api.user_skills st_two) = Some bobRecord
  /\ Api.findOne "u-2" (Api.user_skills (state_after request env_ok st_two)) =
     Some bobRecord
  /\ Api.findOne "u-1" (Api.user_skills (state_after request env_ok st_two)) <>
     Api.findOne "u-1" (Api.user_skills st_two).
Proof.
  intros request. split; [reflexivity | split; [|discriminate]].
  transitivity (Api.findOne "u-2" (Api.user_skills st_two)); [|reflexivity].
  apply (other_users_records_untouched request env_ok st_two "u-2").
  intros user [= <-]. discriminate.
Defined.

Lemma hasUserId_same uid id (d : Api.Doc) :
  Api.hasUserId uid d = true -> Api.hasUserId id d = (uid =? id).
Proof.
  unfold Api.hasUserId.
  destruct (Obj.get d "userId") as [[]|]; try discriminate.
  intros E. apply String.eqb_eq in E. now subst.
Qed.

Lemma recordsOf_replaceFirst uid doc id :
  (forall oid, Api.hasUserId uid (("_id", oid) :: doc) = true) ->
  forall docs docs',
    Api.replaceFirst uid doc docs = Some docs' ->
    recordsOf id docs' = recordsOf id docs.
Proof.
  intros Hdoc. unfold recordsOf.
  induction docs as [|d r IH]; intros docs' H; cbn in H; [discriminate|].
  destruct (Api.hasUserId uid d) eqn:Ed.
  - injection H as <-. cbn [filter].
    rewrite (hasUserId_same _ id _ (Hdoc (Api.field d "_id"))),
            (hasUserId_same _ id _ Ed).
    now destruct (uid =? id).
  - destruct (Api.replaceFirst uid doc r) as [r'|]; [|discriminate].
    injection H as <-. cbn [filter].
    destruct (Api.hasUserId id d); cbn [List.length]; now rewrite (IH r' eq_refl).
Qed.

Lemma recordsOf_absent uid doc docs :
  Api.replaceFirst uid doc docs = None -> recordsOf uid docs = 0.
Proof.
  unfold recordsOf. induction docs as [|d r IH]; cbn; [reflexivity|].
  destruct (Api.hasUserId uid d); [discriminate|].
  destruct (Api.replaceFirst uid doc r); [discriminate | exact IH].
Qed.

Lemma recordsOf_snoc id docs d :
  recordsOf id (docs ++ [d]) =
  recordsOf id docs + (if Api.hasUserId id d then 1 else 0).
Proof.
  unfold recordsOf. rewrite filter_app, length_app. cbn [filter].
  now destruct (Api.hasUserId id d).
Qed.

Lemma one_per_user_upsert user skills t st :
  one_per_user (Api.user_skills st) ->
  one_per_user
    (Api.user_skills
       (snd (Api.replaceOne_upsert (Api.AuthUser.id user)
               (skillsRecord user skills t) st))).
Proof.
  intros H id. unfold Api.replaceOne_upsert.
  destruct (Api.replaceFirst _ _ (Api.user_skills st)) as [docs|] eqn:E;
    cbn [snd Api.user_skills].
  - rewrite (recordsOf_replaceFirst _ _ id
               (hasUserId_skillsRecord user skills t) _ _ E).
    apply H.
  - rewrite recordsOf_snoc.
    destruct (Api.hasUserId id _) eqn:Ei; [|rewrite Nat.add_0_r; apply H].
    rewrite (hasUserId_same _ id _ (hasUserId_skillsRecord user skills t _)) in Ei.
    apply String.eqb_eq in Ei. subst id.
    now rewrite (recordsOf_absent _ _ _ E).
Qed.

(** X14.  "One record per user" is an invariant of the route: if no user id
    has more than one skills record, no request can make it have two. *)
Theorem one_record_per_user_kept :
  forall (request : Api.Request) (env : Api.Env) (st : Api.State),
    one_per_user (Api.user_skills st) ->
    one_per_user (Api.user_skills (state_after request env st)).
Proof.
  intros request env st.
  apply (handleRoute_preserves request env
           (fun a b => one_per_user (Api.user_skills a) ->
                       one_per_user (Api.user_skills b))); auto.
  intros _ user skills st1 _. apply one_per_user_upsert.
Qed.

Lemma one_per_user_st0 : one_per_user (Api.user_skills st0).
Proof.
  intros id. unfold recordsOf. cbn [st0 Api.user_skills filter].
  destruct (Api.hasUserId id aliceRecord); cbn; lia.
Qed.

(** [one_record_per_user_kept] for a new user's first save. *)
Lemma one_record_per_user_kept_witness :
  one_per_user
    (Api.user_skills
       (state_after (POST_skills (Api.VObj [("skills", fourSkills)])) env_bob st0)).
Proof.
  apply (one_record_per_user_kept
           (POST_skills (Api.VObj [("skills", fourSkills)])) env_bob st0).
  exact one_per_user_st0.
Defined.

(* ------------------------------------------------------------------ *)
(** ** The connection handle *)

Lemma connect_stuck env st :
  Api.client st = true -> Api.db st = false ->
  Api.connectToMongo env st = (Api.Return false, st).
Proof. unfold Api.connectToMongo. now intros -> ->. Qed.

Lemma handleRoute_connect_fails request env st e :
  Api.client st = false -> Api.connect_fails env = Some e ->
  Api.handleRoute request env st =
  (Api.Return Api.internalServerError, half_open st).
Proof.
  intros Hc He.
  unfold Api.handleRoute, Api.try_catch at 1, Api.bind at 1, Api.connectToMongo.
  now rewrite Hc, He.
Qed.

(** As [enter_route], for a handle that was left half-open. *)
Ltac enter_route_stuck Hroute Hmethod Hclient Hdb :=
  unfold answer_to, Api.handleRoute;
  change ("/" ++ String.concat "/" (Api.path ?r)) with (route_of r);
  rewrite Hroute, Hmethod;
  unfold Api.try_catch at 1, Api.bind at 1;
  rewrite (connect_stuck _ _ Hclient Hdb);
  cbn [String.eqb Ascii.eqb Bool.eqb andb].

(** X15.  A failed first connection is never retried.  The failing request is
    answered 500 and leaves [client] assigned with [db] unassigned;
    from then on [connectToMongo] hands out the unassigned [db] without
    contacting the server, so that, however healthy the server is by
    then, GET /status is answered 500 and the authenticated reads are
    answered 401 with the TypeError's message, while GET / still works. *)
Theorem failed_connection_is_never_retried :
  forall (request later : Api.Request) (env env' : Api.Env) (st : Api.State)
         (e : string),
    fresh st ->
    Api.connect_fails env = Some e ->
    let st1 := state_after request env st in
    answer_to request env st = Api.Return Api.internalServerError
    /\ Api.client st1 = true /\ Api.db st1 = false
    /\ Api.connectToMongo env' st1 = (Api.Return false, st1)
    /\ (route_of later = "/status" -> Api.method later = "GET" ->
        answer_to later env' st1 = Api.Return Api.internalServerError)
    /\ (forall user,
          Api.getUser env' = Some user ->
          In (route_of later, Api.method later)
             [("/user/skills", "GET"); ("/dashboard/users", "GET")] ->
          answer_to later env' st1 =
          Api.Return (Api.reply_status (Api.err no_db) 401))
    /\ (route_of later = "/" -> Api.method later = "GET" ->
        exists response,
          answer_to later env' st1 = Api.Return response
          /\ Api.status response = 200%Z).
Proof.
  intros request later env env' st e [Hc Hd] He st1.
  unfold st1, state_after, answer_to.
  rewrite (handleRoute_connect_fails request env st e Hc He). cbn [fst snd].
  assert (Hc1 : Api.client (half_open st) = true) by reflexivity.
  assert (Hd1 : Api.db (half_open st) = false) by exact Hd.
  split; [reflexivity|]. split; [exact Hc1|]. split; [exact Hd1|].
  split; [exact (connect_stuck env' _ Hc1 Hd1)|].
  split; [|split].
  - intros Hroute Hmethod.
    enter_route_stuck Hroute Hmethod Hc1 Hd1. reflexivity.
  - intros user Huser Hin.
    destruct Hin as [E|[E|[]]];
      apply pair_equal_spec in E as [Hroute Hmethod];
      symmetry in Hroute, Hmethod;
      enter_route_stuck Hroute Hmethod Hc1 Hd1;
      unfold Api.try_catch, Api.bind;
      rewrite (auth_ok _ _ _ Huser);
      reflexivity.
  - intros Hroute Hmethod.
    enter_route_stuck Hroute Hmethod Hc1 Hd1.
    eexists. split; reflexivity.
Qed.

(** [failed_connection_is_never_retried]: the server refuses the first
    connection and is healthy afterwards. *)
Lemma failed_connection_is_never_retried_witness :
  let st1 := state_after GET_status env_down st_fresh in
  answer_to GET_status env_down st_fresh = Api.Return Api.internalServerError
  /\ Api.client st1 = true /\ Api.db st1 = false
  /\ Api.connectToMongo env_ok st1 = (Api.Return false, st1)
  /\ (route_of GET_skills = "/status" -> Api.method GET_skills = "GET" ->
      answer_to GET_skills env_ok st1 = Api.Return Api.internalServerError)
  /\ (forall user,
        Api.getUser env_ok = Some user ->
        In (route_of GET_skills, Api.method GET_skills)
           [("/user/skills", "GET"); ("/dashboard/users", "GET")] ->
        answer_to GET_skills env_ok st1 =
        Api.Return (Api.reply_status (Api.err no_db) 401))
  /\ (route_of GET_skills = "/" -> Api.method GET_skills = "GET" ->
      exists response,
        answer_to GET_skills env_ok st1 = Api.Return response
        /\ Api.status response = 200%Z).
Proof.
  apply (failed_connection_is_never_retried GET_status GET_skills
           env_down env_ok st_fresh "ECONNREFUSED").
  - split; reflexivity.
  - reflexivity.
Defined.

(* ------------------------------------------------------------------ *)
(** ** Methods without a route *)

Lemma handleRoute_unhandled request env st :
  connected env st ->
  Api.handled (route_of request) (Api.method request) = false ->
  Api.handleRoute request env st =
  (Api.Return (Api.notFound (route_of request)), opened st).
Proof.
  intros Hconn Hnot.
  pose proof (not_handled _ _ Hnot) as H.
  unfold Api.handleRoute.
  change ("/" ++ String.concat "/" (Api.path request)) with (route_of request).
  unfold Api.try_catch at 1, Api.bind at 1.
  rewrite (connect_ok _ _ Hconn).
  rewrite !H by (cbn; tauto).
  reflexivity.
Qed.

(** X16.  PUT, DELETE and PATCH are exported but no route serves them: on
    every path they are answered 404 (the connection being there), and
    nothing is stored. *)
Theorem put_delete_patch_are_not_found :
  forall (request : Api.Request) (env : Api.Env) (st : Api.State),
    connected env st ->
    In (Api.method request) ["PUT"; "DELETE"; "PATCH"] ->
    Api.handleRoute request env st =
    (Api.Return (Api.notFound (route_of request)), opened st).
Proof.
  intros request env st Hconn Hm.
  apply handleRoute_unhandled; [exact Hconn|].
  unfold Api.handled, Api.routes. cbn [existsb fst snd].
  destruct Hm as [<-|[<-|[<-|[]]]];
    cbn [String.eqb Ascii.eqb Bool.eqb]; now rewrite !andb_false_r.
Qed.

(** [put_delete_patch_are_not_found] for a PUT on an existing path. *)
Lemma put_delete_patch_are_not_found_witness :
  Api.handleRoute (Api.mkRequest ["user"; "skills"] "PUT"
                                 (Api.Return (Api.VObj [("skills", fourSkills)])))
                  env_ok st0 =
  (Api.Return (Api.notFound "/user/skills"), opened st0).
Proof.
  apply (put_delete_patch_are_not_found
           (Api.mkRequest ["user"; "skills"] "PUT"
                          (Api.Return (Api.VObj [("skills", fourSkills)])))
           env_ok st0).
  - reflexivity.
  - left. reflexivity.
Defined.

(* ------------------------------------------------------------------ *)
(** ** Saving and reading back *)

Lemma skillsArray_body b items :
  skillsArray b = Some items ->
  exists fields, b = Api.VObj fields
                 /\ Obj.get fields "skills" = Some (Api.VArr items).
Proof.
  destruct b as [| | | | | | | |fields]; try discriminate.
  cbn [skillsArray].
  destruct (Obj.get fields "skills") as [[| | | | | | |l|]|] eqn:E;
    try discriminate.
  intros [= <-]. now exists fields.
Qed.

Lemma post_skills_stores request env st user b items :
  route_of request = "/user/skills" ->
  Api.method request = "POST" ->
  connected env st ->
  Api.db_fails env = None ->
  Api.getUser env = Some user ->
  Api.body request = Api.Return b ->
  skillsArray b = Some items ->
  Api.handleRoute request env st =
  (Api.Return
     (Api.reply (Api.VObj [("message", Api.VStr "Skills updated successfully");
                           ("skills", Api.VArr items)])),
   snd (Api.replaceOne_upsert (Api.AuthUser.id user)
          (skillsRecord user (Api.VArr items) (Api.now env)) (opened st))).
Proof.
  intros Hroute Hmethod Hconn Hdb Huser Hbody Harr.
  apply skillsArray_body in Harr as (fields & -> & Hf).
  enter_route Hroute Hmethod Hconn.
  unfold Api.try_catch, Api.bind.
  rewrite (auth_ok _ _ _ Huser).
  unfold Api.request_json. rewrite Hbody.
  cbn [Api.prop Api.ret]. unfold Api.field. rewrite Hf.
  cbn [Api.truthy Api.isArray negb orb].
  unfold Api.ask. now rewrite (collection_ok _ _ _ Hdb).
Qed.

Lemma replaceOne_upsert_handles id doc st :
  Api.client (snd (Api.replaceOne_upsert id doc st)) = Api.client st
  /\ Api.db (snd (Api.replaceOne_upsert id doc st)) = Api.db st.
Proof.
  unfold Api.replaceOne_upsert.
  now destruct (Api.replaceFirst id doc (Api.user_skills st)).
Qed.

Lemma get_skills_found request env st user doc :
  route_of request = "/user/skills" ->
  Api.method request = "GET" ->
  connected env st ->
  Api.db_fails env = None ->
  Api.getUser env = Some user ->
  Api.findOne (Api.AuthUser.id user) (Api.user_skills st) = Some doc ->
  Api.handleRoute request env st =
  (Api.Return
     (Api.reply (Api.VObj [("skills",
                            Api.or_else (Api.field doc "skills") (Api.VArr []))])),
   opened st).
Proof.
  intros Hroute Hmethod Hconn Hdb Huser Hdoc.
  enter_route Hroute Hmethod Hconn.
  unfold Api.try_catch, Api.bind.
  rewrite (auth_ok _ _ _ Huser), (collection_ok _ _ _ Hdb).
  cbn [fst snd opened Api.user_skills]. now rewrite Hdoc.
Qed.

(** X17.  What a user saves is what the user reads back: after a successful
    POST /user/skills with an array (of any length, empty included), the
    same user's GET /user/skills answers 200 with exactly that array. *)
Theorem saved_skills_are_read_back :
  forall (post get : Api.Request) (env env' : Api.Env) (st : Api.State)
         (user : Api.AuthUser.t) (b : Api.JsVal) (items : list Api.JsVal),
    route_of post = "/user/skills" -> Api.method post = "POST" ->
    connected env st -> Api.db_fails env = None ->
    Api.getUser env = Some user ->
    Api.body post = Api.Return b -> skillsArray b = Some items ->
    route_of get = "/user/skills" -> Api.method get = "GET" ->
    Api.db_fails env' = None -> Api.getUser env' = Some user ->
    answer_to get env' (state_after post env st) =
    Api.Return (Api.reply (Api.VObj [("skills", Api.VArr items)])).
Proof.
  intros post get env env' st user b items
         Hroute Hmethod Hconn Hdb Huser Hbody Harr
         Hroute' Hmethod' Hdb' Huser'.
  unfold state_after, answer_to.
  rewrite (post_skills_stores post env st user b items) by assumption.
  cbn [snd].
  set (st' := snd (Api.replaceOne_upsert _ _ (opened st))).
  destruct (replaceOne_upsert_spec user (Api.VArr items) (Api.now env)
                                   (opened st)) as ((oid & Hrec) & _ & _).
  fold st' in Hrec.
  assert (Hconn' : connected env' st').
  { unfold connected, st'.
    destruct (replaceOne_upsert_handles (Api.AuthUser.id user)
                (skillsRecord user (Api.VArr items) (Api.now env)) (opened st))
      as [-> ->]. reflexivity. }
  rewrite (get_skills_found get env' st' user _ Hroute' Hmethod' Hconn' Hdb'
                            Huser' Hrec).
  reflexivity.
Qed.

(** [saved_skills_are_read_back] for four skills saved over two. *)
Lemma saved_skills_are_read_back_witness :
  answer_to GET_skills env_ok
    (state_after (POST_skills (Api.VObj [("skills", fourSkills)])) env_ok st0) =
  Api.Return (Api.reply (Api.VObj [("skills", fourSkills)])).
Proof.
  apply (saved_skills_are_read_back
           (POST_skills (Api.VObj [("skills", fourSkills)])) GET_skills
           env_ok env_ok st0 alice (Api.VObj [("skills", fourSkills)])
           [Api.VStr "Coding"; Api.VStr "Design"; Api.VStr "Writing";
            Api.VStr "Cooking"]);
    reflexivity.
Defined.

(* ------------------------------------------------------------------ *)
(** ** The dashboard's user list *)

Lemma without_id_get (doc : Api.Doc) k :
  Obj.get (Api.without_id doc) k =
  if k =? "_id" then None else Obj.get doc k.
Proof.
  unfold Api.without_id.
  induction doc as [|[k' v] r IH]; cbn [filter Obj.get fst].
  - now destruct (k =? "_id").
  - destruct (k' =? "_id") eqn:E; cbn [negb Obj.get].
    + apply String.eqb_eq in E. subst k'. rewrite IH.
      rewrite (String.eqb_sym "_id" k). now destruct (k =? "_id").
    + rewrite IH. destruct (k' =? k) eqn:Ek; [|reflexivity].
      apply String.eqb_eq in Ek. subst k'. now rewrite E.
Qed.

(** X18.  GET /dashboard/users answers any signed-in user with every stored
    record, whoever it belongs to, in the store's order; each record
    comes without its [_id] and with all its other fields as stored. *)
Theorem dashboard_lists_every_record :
  forall (request : Api.Request) (env : Api.Env) (st : Api.State)
         (user : Api.AuthUser.t),
    route_of request = "/dashboard/users" -> Api.method request = "GET" ->
    connected env st -> Api.db_fails env = None ->
    Api.getUser env = Some user ->
    exists users,
      answer_to request env st =
        Api.Return (Api.reply (Api.VObj [("users", Api.VArr users)]))
      /\ Forall2
           (fun doc u =>
              exists fields,
                u = Api.VObj fields
                /\ Obj.get fields "_id" = None
                /\ forall k, k <> "_id" -> Obj.get fields k = Obj.get doc k)
           (Api.user_skills st) users
      /\ state_after request env st = opened st.
Proof.
  intros request env st user Hroute Hmethod Hconn Hdb Huser.
  assert (E : Api.handleRoute request env st =
              (Api.Return
                 (Api.reply
                    (Api.VObj [("users",
                                Api.VArr (map Api.VObj
                                            (map Api.without_id
                                                 (Api.user_skills st))))])),
               opened st)).
  { enter_route Hroute Hmethod Hconn.
    unfold Api.try_catch, Api.bind.
    now rewrite (auth_ok _ _ _ Huser), (collection_ok _ _ _ Hdb). }
  unfold answer_to, state_after. rewrite E. cbn [fst snd].
  eexists. split; [reflexivity | split; [|reflexivity]].
  clear E. generalize (Api.user_skills st) as docs.
  induction docs as [|doc docs IH]; cbn [map]; constructor; [|exact IH].
  exists (Api.without_id doc). split; [reflexivity|].
  split.
  - now rewrite without_id_get.
  - intros k Hk. rewrite without_id_get.
    apply String.eqb_neq in Hk. now rewrite Hk.
Qed.

(** [dashboard_lists_every_record] when bob, who has no record, asks. *)
Lemma dashboard_lists_every_record_witness :
  exists users,
    answer_to GET_dashboard env_bob st0 =
      Api.Return (Api.reply (Api.VObj [("users", Api.VArr users)]))
    /\ Forall2
         (fun doc u =>
            exists fields,
              u = Api.VObj fields
              /\ Obj.get fields "_id" = None
              /\ forall k, k <> "_id" -> Obj.get fields k = Obj.get doc k)
         (Api.user_skills st0) users
    /\ state_after GET_dashboard env_bob st0 = opened st0.
Proof.
  apply (dashboard_lists_every_record GET_dashboard env_bob st0 bob);
    reflexivity.
Defined.

(* ------------------------------------------------------------------ *)
(** ** The status log *)

Lemma post_status_run request env st b :
  route_of request = "/status" -> Api.method request = "POST" ->
  connected env st -> Api.db_fails env = None ->
  Api.body request = Api.Return b ->
  b <> Api.VNull -> b <> Api.VUndefined ->
  Api.handleRoute request env st =
  if Api.truthy (read b "client_name") then
    let logged :=
      (statusRecord (Api.uuid env) (read b "client_name") (Api.now env)
       ++ [("_id", Api.VObjectId (Api.next_oid st))])%list in
    (Api.Return (Api.reply (Api.VObj logged)),
     Api.mkState true true (Api.user_skills st)
                 (Api.status_checks st ++ [logged])%list
                 (Api.next_oid st + 1)%Z)
  else
    (Api.Return (Api.reply_status (Api.err "client_name is required") 400),
     opened st).
Proof.
  intros Hroute Hmethod Hconn Hdb Hbody Hnull Hundef.
  enter_route Hroute Hmethod Hconn.
  unfold Api.bind, Api.request_json. rewrite Hbody.
  rewrite prop_read by assumption.
  destruct (Api.truthy (read b "client_name")); cbn [negb]; [|reflexivity].
  unfold Api.ask. now rewrite (collection_ok _ _ _ Hdb).
Qed.

Lemma get_status_run request env st :
  route_of request = "/status" -> Api.method request = "GET" ->
  connected env st -> Api.db_fails env = None ->
  Api.handleRoute request env st =
  (Api.Return
     (Api.reply (Api.VArr (map Api.VObj
                             (map Api.without_id
                                  (firstn 1000 (Api.status_checks st)))))),
   opened st).
Proof.
  intros Hroute Hmethod Hconn Hdb.
  enter_route Hroute Hmethod Hconn.
  unfold Api.bind. now rewrite (collection_ok _ _ _ Hdb).
Qed.



Lemma firstn_snoc_short {A} n (l : list A) x :
  (List.length l < n)%nat -> firstn n (l ++ [x]) = (l ++ [x])%list.
Proof.
  intros H. apply firstn_all2. rewrite length_app. cbn. lia.
Qed.

Lemma firstn_snoc_full {A} n (l : list A) x :
  (n <= List.length l)%nat -> firstn n (l ++ [x]) = firstn n l.
Proof.
  intros H. rewrite firstn_app.
  replace (n - List.length l)%nat with 0%nat by lia.
  cbn. apply app_nil_r.
Qed.

(** X20.  GET /status lists the first 1000 records of the log, in the
    log's order and without their [_id], and no more.  So a status check
    that was just logged is the last entry of the list, after the
    entries listed before, while the log held fewer than 1000 records;
    once the log holds 1000 it is not listed at all: the list has 1000
    entries and the answer is the same as before the check. *)
Theorem status_list_is_capped :
  forall (post get : Api.Request) (env env' : Api.Env) (st : Api.State)
         (b : Api.JsVal),
    route_of post = "/status" -> Api.method post = "POST" ->
    connected env st -> Api.db_fails env = None ->
    Api.body post = Api.Return b ->
    b <> Api.VNull -> b <> Api.VUndefined ->
    Api.truthy (read b "client_name") = true ->
    route_of get = "/status" -> Api.method get = "GET" ->
    Api.db_fails env' = None ->
    let st' := state_after post env st in
    let listed (log : list Api.Doc) :=
      map Api.VObj (map Api.without_id (firstn 1000 log)) in
    answer_to get env' st' =
      Api.Return (Api.reply (Api.VArr (listed (Api.status_checks st'))))
    /\ (List.length (listed (Api.status_checks st')) <= 1000)%nat
    /\ ((List.length (Api.status_checks st) < 1000)%nat ->
        listed (Api.status_checks st') =
        (listed (Api.status_checks st)
         ++ [Api.VObj (statusRecord (Api.uuid env) (read b "client_name")
                                    (Api.now env))])%list)
    /\ ((1000 <= List.length (Api.status_checks st))%nat ->
        listed (Api.status_checks st') = listed (Api.status_checks st)
        /\ List.length (listed (Api.status_checks st')) = 1000
        /\ answer_to get env' st' = answer_to get env' (opened st)).
Proof.
  intros post get env env' st b Hroute Hmethod Hconn Hdb Hbody Hnull Hundef
         Hname Hroute' Hmethod' Hdb' st' listed.
  unfold st', state_after, answer_to, listed.
  rewrite (post_status_run post env st b) by assumption.
  rewrite Hname. cbn [snd].
  rewrite (get_status_run get env') by (assumption || reflexivity).
  rewrite (get_status_run get env' (opened st)) by (assumption || reflexivity).
  cbn [fst Api.status_checks opened].
  split; [reflexivity|]. split; [|split].
  - rewrite !length_map. apply firstn_le_length.
  - intros Hshort. rewrite firstn_snoc_short by exact Hshort.
    rewrite (firstn_all2 (n := 1000) (Api.status_checks st)) by lia.
    now rewrite !map_app.
  - intros Hfull. rewrite firstn_snoc_full by exact Hfull.
    split; [reflexivity | split; [|reflexivity]].
    rewrite !length_map, length_firstn. lia.
Qed.

(** [status_list_is_capped] on a log that holds 1000 records: the check
    is logged as the 1001st and the list does not show it. *)
Lemma status_list_is_capped_witness :
  let body := Api.VObj [("client_name", Api.VStr "late")] in
  let st' := state_after (POST_status body) env_ok st_full in
  let listed (log : list Api.Doc) :=
    map Api.VObj (map Api.without_id (firstn 1000 log)) in
  List.length (Api.status_checks st_full) = 1000
  /\ List.length (Api.status_checks st') = 1001
  /\ listed (Api.status_checks st') = listed (Api.status_checks st_full)
  /\ List.length (listed (Api.status_checks st')) = 1000
  /\ answer_to GET_status env_ok st' = answer_to GET_status env_ok (opened st_full).
Proof.
  intros body st' listed.
  split; [vm_compute; reflexivity | split; [vm_compute; reflexivity|]].
  destruct (status_list_is_capped
              (POST_status body) GET_status env_ok env_ok st_full body
              eq_refl eq_refl eq_refl eq_refl eq_refl)
    as (_ & _ & _ & H); try discriminate; try reflexivity.
  apply H. apply Nat.leb_le. vm_compute. reflexivity.
Defined.

(* ------------------------------------------------------------------ *)
(** ** Bodies that cannot be read *)

(** X21.  A body that does not parse, or that is JSON [null], is never
    answered 400.  On the routes without a catch of their own (sign-up,
    sign-in, POST /status) it is answered with the generic 500; on POST
    /user/skills and POST /jobs/match, for a signed-in user, with 401
    and the error's message.  Nothing is stored either way. *)
Theorem unreadable_body_is_500_or_401 :
  forall (request : Api.Request) (env : Api.Env) (st : Api.State)
         (message : string),
    connected env st ->
    (Api.body request = Api.Throw message
     \/ (Api.body request = Api.Return Api.VNull
         /\ message = Api.TypeError "null" "skills")) ->
    (In (route_of request, Api.method request)
        [("/auth/signup", "POST"); ("/auth/signin", "POST"); ("/status", "POST")] ->
     Api.handleRoute request env st =
     (Api.Return Api.internalServerError, opened st))
    /\ (forall user,
          Api.getUser env = Some user ->
          In (route_of request, Api.method request)
             [("/user/skills", "POST"); ("/jobs/match", "POST")] ->
          Api.handleRoute request env st =
          (Api.Return (Api.reply_status (Api.err message) 401), opened st)).
Proof.
  intros request env st message Hconn Hbody. split.
  - intros Hin.
    destruct Hin as [E|[E|[E|[]]]];
      apply pair_equal_spec in E as [Hroute Hmethod];
      symmetry in Hroute, Hmethod;
      enter_route Hroute Hmethod Hconn;
      unfold Api.bind, Api.request_json;
      destruct Hbody as [-> | [-> _]]; reflexivity.
  - intros user Huser Hin.
    destruct Hin as [E|[E|[]]];
      apply pair_equal_spec in E as [Hroute Hmethod];
      symmetry in Hroute, Hmethod;
      enter_route Hroute Hmethod Hconn;
      unfold Api.try_catch, Api.bind;
      rewrite (auth_ok _ _ _ Huser);
      unfold Api.request_json;
      destruct Hbody as [-> | [-> ->]]; reflexivity.
Qed.

(** [unreadable_body_is_500_or_401] for a null body. *)
Lemma unreadable_body_is_500_or_401_witness :
  (In (route_of (POST_skills Api.VNull), Api.method (POST_skills Api.VNull))
      [("/auth/signup", "POST"); ("/auth/signin", "POST"); ("/status", "POST")] ->
   Api.handleRoute (POST_skills Api.VNull) env_ok st0 =
   (Api.Return Api.internalServerError, opened st0))
  /\ (forall user,
        Api.getUser env_ok = Some user ->
        In (route_of (POST_skills Api.VNull), Api.method (POST_skills Api.VNull))
           [("/user/skills", "POST"); ("/jobs/match", "POST")] ->
        Api.handleRoute (POST_skills Api.VNull) env_ok st0 =
        (Api.Return
           (Api.reply_status (Api.err (Api.TypeError "null" "skills")) 401),
         opened st0)).
Proof.
  apply (unreadable_body_is_500_or_401 (POST_skills Api.VNull) env_ok st0
           (Api.TypeError "null" "skills")).
  - reflexivity.
  - right. split; reflexivity.
Defined.

(* ------------------------------------------------------------------ *)
(** ** Bounds of the skill-frequency chart *)

(** X11.  In the skill-frequency chart no skill is listed twice, even when the
    catalog repeats a name; there is one count per label; and every
    count lies between 0 and the number of user records. *)
Theorem skillFrequency_bounds :
  forall (skills : list Skill.t) (users : list User.t),
    let chart := Page.getSkillFrequencyData skills users in
    NoDup (Page.labels chart)
    /\ List.length (Page.labels chart) = List.length (Page.data chart)
    /\ Forall (fun n => (0 <= n <= Z.of_nat (List.length users))%Z)
              (Page.data chart).
Proof.
  intros skills users chart. subst chart.
  cbn [Page.getSkillFrequencyData Page.labels Page.data].
  pose proof (skillCounts_NoDup skills users) as Hnd.
  split; [now apply keys_NoDup | split; [apply keys_values_length|]].
  apply Forall_forall. intros n Hn.
  unfold JsObject.values in Hn. apply in_map_iff in Hn as ([k v] & <- & Hkv).
  cbn [snd].
  apply (Permutation_in _ (ownProperties_perm _)) in Hkv.
  assert (Hk : In k (map Skill.name skills) /\ k <> "__proto__").
  { assert (H : In k (Obj.names (Page.skillCounts skills users)))
      by (unfold Obj.names; apply in_map_iff; now exists (k, v)).
    rewrite skillCounts_names, first_seen_In, filter_In in H.
    unfold settable in H. now rewrite negb_true_iff, String.eqb_neq in H. }
  destruct Hk as [Hk Hp].
  apply (In_get _ _ _ Hnd) in Hkv.
  rewrite (skillCounts_get _ _ _ Hk Hp) in Hkv. injection Hkv as <-.
  unfold Page.usersWith.
  pose proof (filter_length_le (Page.hasSkill k) users). lia.
Qed.
